(** * Membership management: role bootstrap, membership numbers, end dates

    A shallow embedding of the business logic of the membership application:

    - [src/pages/Dashboard.tsx] (component [AddMembership]):
      [calculateEndDate], [generateMembershipNumber], [handleSubmit];
    - [src/pages/maintenance/UpdateMembership.tsx]:
      [calculateNewEndDate], [handleUpdate];
    - the SQL migrations: [generate_membership_number], [handle_new_user].

    JavaScript strings are [string]s (a character stands for a code unit
    below 256), row counts are [N] (exact integers, as the counts of a table
    are), the fields of a JavaScript [Date] are [Z].  The table [memberships]
    is a list of rows; a handler is a computation in a state and exception
    monad over its page and the table.  The functions the pages import from
    [date-fns] ([parseISO], [addMonths], [addYears], [format]) and the string
    primitives of the two runtimes ([String], [padStart], [LPAD]) are
    modelled in the first two modules. *)

From Stdlib Require Import ZArith NArith Bool List String Ascii Lia.
Import ListNotations.

Local Open Scope string_scope.

(* ================================================================== *)
(** ** Strings of the two runtimes *)

Module Text.

(** [String(n)] of JavaScript and [n::TEXT] of PostgreSQL on a non-negative
    integer: its decimal digits, most significant first, no leading zero. *)

Definition digit_char (d : N) : ascii := ascii_of_N (48 + d).

Fixpoint digits_acc (fuel : nat) (n : N) (acc : string) : string :=
  match fuel with
  | O => acc
  | S f =>
      let acc' := String (digit_char (n mod 10)) acc in
      if (n / 10 =? 0)%N then acc' else digits_acc f (n / 10) acc'
  end.

(** A number has no more decimal digits than binary ones. *)
Definition String_of_N (n : N) : string :=
  digits_acc (S (N.to_nat (N.size n))) n "".

(** The filler of [padStart] and [LPAD]: [fill] repeated, cut to [n]
    characters; [cur] is what is left of the current copy. *)
Fixpoint cycle (fill cur : string) (n : nat) : string :=
  match n with
  | O => ""
  | S k =>
      match cur with
      | String c r => String c (cycle fill r k)
      | EmptyString =>
          match fill with
          | String c r => String c (cycle fill r k)
          | EmptyString => ""
          end
      end
  end.

(** [String.prototype.padStart(targetLength, fillString)]. *)
Definition padStart (s : string) (targetLength : nat) (fillString : string)
  : string :=
  let stringLength := String.length s in
  if (targetLength <=? stringLength)%nat then s
  else if String.eqb fillString "" then s
  else cycle fillString fillString (targetLength - stringLength) ++ s.

(** [LPAD(string, length, fill)] of PostgreSQL: a string longer than [length]
    is cut to its first [length] characters. *)
Definition LPAD (s : string) (len : nat) (fill : string) : string :=
  let stringLength := String.length s in
  if (len <=? stringLength)%nat then substring 0 len s
  else cycle fill fill (len - stringLength) ++ s.

(** Reading a decimal numeral back: the digits at the head of [s], folded
    into [acc], and what follows them. *)
Definition digit_of_ascii (c : ascii) : option N :=
  let k := N_of_ascii c in
  if ((48 <=? k) && (k <=? 57))%N then Some (k - 48)%N else None.

Fixpoint read_N (s : string) (acc : N) : N * string :=
  match s with
  | EmptyString => (acc, EmptyString)
  | String c r =>
      match digit_of_ascii c with
      | Some d => read_N r (10 * acc + d)
      | None => (acc, s)
      end
  end.

End Text.

(* ================================================================== *)
(** ** The date functions imported from date-fns *)

Module DateFns.
Import Text.
Local Open Scope Z_scope.

(** A JavaScript [Date] seen through [getFullYear], [getMonth] (0 to 11) and
    [getDate] (1 to 31), in local time.  The time of day is left out: no
    function below reads it and the pattern the pages print with has no time
    field.  The value "Invalid Date" is [None] of [option Date]. *)
Record Date := mkDate { getFullYear : Z; getMonth : Z; getDate : Z }.

Definition isLeapYear (y : Z) : bool :=
  (y mod 400 =? 0) || ((y mod 4 =? 0) && negb (y mod 100 =? 0)).

Definition getDaysInMonth (y m : Z) : Z :=
  if m =? 1 then (if isLeapYear y then 29 else 28)
  else if (m =? 3) || (m =? 5) || (m =? 8) || (m =? 10) then 30
  else 31.

Definition valid (d : Date) : bool :=
  (0 <=? getMonth d) && (getMonth d <=? 11) &&
  (1 <=? getDate d) && (getDate d <=? getDaysInMonth (getFullYear d) (getMonth d)).

(** Calendar order. *)
Definition date_compare (a b : Date) : comparison :=
  match getFullYear a ?= getFullYear b with
  | Eq => match getMonth a ?= getMonth b with
          | Eq => getDate a ?= getDate b
          | c => c
          end
  | c => c
  end.

Definition date_lt (a b : Date) : Prop := date_compare a b = Lt.
Definition date_le (a b : Date) : Prop := date_compare a b <> Gt.
Definition date_leb (a b : Date) : bool :=
  match date_compare a b with Gt => false | _ => true end.

(** [date.setMonth(month, 0)]: day 0 of [month] is the last day of the month
    before it; a month outside 0..11 carries into the year. *)
Definition setMonth_day0 (d : Date) (month : Z) : Date :=
  let m := month - 1 in
  let y := getFullYear d + m / 12 in
  mkDate y (m mod 12) (getDaysInMonth y (m mod 12)).

(** [addMonths(date, amount)]:
<<
  if (!amount) return _date;
  const dayOfMonth = _date.getDate();
  endOfDesiredMonth.setMonth(_date.getMonth() + amount + 1, 0);
  const daysInMonth = endOfDesiredMonth.getDate();
  if (dayOfMonth >= daysInMonth) return endOfDesiredMonth;
  _date.setFullYear(endOfDesiredMonth.getFullYear(),
                    endOfDesiredMonth.getMonth(), dayOfMonth);
  return _date;
>>
    In the last branch the day fits the month, so [setFullYear] carries
    nothing over. *)
Definition addMonths (date : Date) (amount : Z) : Date :=
  if amount =? 0 then date
  else
    let dayOfMonth := getDate date in
    let endOfDesiredMonth := setMonth_day0 date (getMonth date + amount + 1) in
    let daysInMonth := getDate endOfDesiredMonth in
    if dayOfMonth >=? daysInMonth then endOfDesiredMonth
    else mkDate (getFullYear endOfDesiredMonth) (getMonth endOfDesiredMonth)
                dayOfMonth.

(** [addYears(date, amount)] is [addMonths(date, amount * 12)]. *)
Definition addYears (date : Date) (amount : Z) : Date :=
  addMonths date (amount * 12).

(** [addLeadingZeros(number, targetLength)] of the formatters. *)
Definition addLeadingZeros (number : Z) (targetLength : nat) : string :=
  let sign := if number <? 0 then "-" else "" in
  (sign ++ padStart (String_of_N (Z.abs_N number)) targetLength "0")%string.

(** The tokens [yyyy], [MM], [dd] and [MMM].  The year token prints year 0
    and the years before it as years of the era before: 1, 2, ... *)
Definition token_yyyy (d : Date) : string :=
  let signedYear := getFullYear d in
  let year := if 0 <? signedYear then signedYear else 1 - signedYear in
  addLeadingZeros year 4.

Definition token_MM (d : Date) : string := addLeadingZeros (getMonth d + 1) 2.
Definition token_dd (d : Date) : string := addLeadingZeros (getDate d) 2.

Definition token_MMM (d : Date) : string :=
  nth (Z.to_nat (getMonth d))
      ["Jan"; "Feb"; "Mar"; "Apr"; "May"; "Jun";
       "Jul"; "Aug"; "Sep"; "Oct"; "Nov"; "Dec"]%string ""%string.

Inductive Pattern := yyyy_MM_dd | MMM_dd_yyyy.

Definition render (d : Date) (p : Pattern) : string :=
  match p with
  | yyyy_MM_dd => token_yyyy d ++ "-" ++ token_MM d ++ "-" ++ token_dd d
  | MMM_dd_yyyy => token_MMM d ++ " " ++ token_dd d ++ ", " ++ token_yyyy d
  end%string.

(** A thrown JavaScript error, by its [message]. *)
Record JsError := mkError { message : string }.

(** [format(date, pattern)] throws a [RangeError] on an invalid date. *)
Definition format (date : option Date) (p : Pattern) : JsError + string :=
  match date with
  | None => inl (mkError "Invalid time value")
  | Some d => inr (render d p)
  end.

(** The complete calendar date of ISO 8601, [YYYY-MM-DD] with a year of four
    or more digits, as a DATE column of the database prints it. *)
Definition iso_text (d : Date) : string :=
  (addLeadingZeros (getFullYear d) 4 ++ "-" ++ token_MM d ++ "-" ++ token_dd d)%string.

Definition read_fields (s : string) : option Date :=
  let '(y, r1) := read_N s 0 in
  match r1 with
  | String "-" r2 =>
      let '(m, r3) := read_N r2 0 in
      match r3 with
      | String "-" r4 =>
          let '(d, r5) := read_N r4 0 in
          match r5 with
          | EmptyString => Some (mkDate (Z.of_N y) (Z.of_N m - 1) (Z.of_N d))
          | _ => None
          end
      | _ => None
      end
  | _ => None
  end.

Definition read_iso (s : string) : option Date :=
  match read_fields s with
  | Some d => if valid d && String.eqb (iso_text d) s then Some d else None
  | None => None
  end.

(** [parseISO(text)] on the texts this application hands it, the values of
    the DATE columns [start_date] and [end_date]: the calendar date with a
    four-digit year is read and validated; a year of five digits or more, a
    day that is not in the calendar, and any other text here give
    "Invalid Date".  (The library also reads week dates, ordinal dates and
    times; a DATE column prints none.) *)
Definition parseISO (s : string) : option Date :=
  if (String.length s =? 10)%nat then read_iso s else None.

End DateFns.

(* ================================================================== *)
(** ** The database: tables, requests, functions and triggers *)

Module Db.
Import Text DateFns.

(** A row of [public.memberships].  Dates and timestamps are held as the text
    the client exchanges with the DATE and TIMESTAMP columns. *)
Module Row.
Record t := mk {
  id : string;
  membership_number : string;
  member_name : string;
  email : string;
  phone : string;
  address : string;
  duration : string;
  status : string;
  start_date : string;
  end_date : string;
  created_by : option string;
  created_at : string;
  updated_at : string
}.
End Row.

Definition Table := list Row.t.

(** The object handed to [.update(...)]: the columns it names. *)
Record Patch := mkPatch {
  set_end_date : option string;
  set_status : option string;
  set_updated_at : option string
}.

Definition assign (new : option string) (old : string) : string :=
  match new with Some v => v | None => old end.

Definition apply_patch (p : Patch) (r : Row.t) : Row.t :=
  Row.mk (Row.id r) (Row.membership_number r) (Row.member_name r)
         (Row.email r) (Row.phone r) (Row.address r) (Row.duration r)
         (assign (set_status p) (Row.status r))
         (Row.start_date r)
         (assign (set_end_date p) (Row.end_date r))
         (Row.created_by r) (Row.created_at r)
         (assign (set_updated_at p) (Row.updated_at r)).

(** [UPDATE memberships SET ... WHERE id = key]. *)
Definition update_eq_id (p : Patch) (key : string) (t : Table) : Table :=
  map (fun r => if Row.id r =? key then apply_patch p r else r) t.

(** [.select('*').eq('id', key).single()]: the row when exactly one matches. *)
Definition select_eq_id_single (key : string) (t : Table) : option Row.t :=
  match filter (fun r => Row.id r =? key) t with
  | [r] => Some r
  | _ => None
  end.

(** What a DATE column accepts from this client and prints back: the calendar
    date, from year 1 on (the type has no year 0). *)
Definition date_in (s : string) : option Date :=
  match read_iso s with
  | Some d => if (1 <=? getFullYear d)%Z then Some d else None
  | None => None
  end.

Definition dq : string := String (ascii_of_nat 34) "".

Inductive PgError :=
| integer_out_of_range
| not_null_violation (column relation : string)
| unique_violation (constraint : string).

Definition pg_message (e : PgError) : string :=
  match e with
  | integer_out_of_range => "integer out of range"
  | not_null_violation c r =>
      "null value in column " ++ dq ++ c ++ dq ++ " of relation " ++ dq ++ r
        ++ dq ++ " violates not-null constraint"
  | unique_violation c =>
      "duplicate key value violates unique constraint " ++ dq ++ c ++ dq
  end.

(** The values an [INSERT INTO memberships] receives from the client; a key
    the object leaves [undefined] is not sent. *)
Record NewMembership := mkNew {
  new_membership_number : string;
  new_member_name : string;
  new_email : string;
  new_phone : string;
  new_address : string;
  new_duration : string;
  new_end_date : option string;
  new_created_by : option string
}.

(** What the server supplies for the column defaults. *)
Record Defaults := mkDefaults {
  gen_random_uuid : string;
  CURRENT_DATE : Date;
  NOW : string
}.

Definition insert_membership (dflt : Defaults) (v : NewMembership) (t : Table)
  : PgError + Table :=
  match new_end_date v with
  | None => inl (not_null_violation "end_date" "memberships")
  | Some e =>
      if existsb (fun r => Row.id r =? gen_random_uuid dflt) t
      then inl (unique_violation "memberships_pkey")
      else if existsb (fun r => Row.membership_number r =? new_membership_number v) t
      then inl (unique_violation "memberships_membership_number_key")
      else inr (t ++ [Row.mk (gen_random_uuid dflt) (new_membership_number v)
                             (new_member_name v) (new_email v) (new_phone v)
                             (new_address v) (new_duration v) "active"
                             (iso_text (CURRENT_DATE dflt)) e
                             (new_created_by v) (NOW dflt) (NOW dflt)])%list
  end.

(** [public.generate_membership_number()]:
<<
  SELECT COUNT( * ) + 1 INTO counter FROM public.memberships;
  new_number := 'MEM' || LPAD(counter::TEXT, 6, '0');
>>
    [counter] is declared INT: a value above 2147483647 does not fit. *)
Definition generate_membership_number_at (count : N) : PgError + string :=
  let counter := (count + 1)%N in
  if (counter <=? 2147483647)%N
  then inr ("MEM" ++ LPAD (String_of_N counter) 6 "0")
  else inl integer_out_of_range.

Definition generate_membership_number (memberships : Table) : PgError + string :=
  generate_membership_number_at (N.of_nat (List.length memberships)).

(** *** Roles and the sign-up trigger *)

Inductive app_role := admin | user.

Record Profile := mkProfile {
  profile_id : string; full_name : string; profile_email : string;
  profile_created_at : string
}.

Record UserRole := mkUserRole {
  role_id : string; user_id : string; role : app_role
}.

Definition app_role_eqb (a b : app_role) : bool :=
  match a, b with admin, admin | user, user => true | _, _ => false end.

(** The row of [auth.users] the trigger fires for, by the columns it reads;
    [raw_full_name] is [raw_user_meta_data->>'full_name']. *)
Record AuthUser := mkAuthUser {
  NEW_id : string; NEW_email : option string; raw_full_name : option string
}.

Record Accounts := mkAccounts {
  profiles : list Profile; user_roles : list UserRole
}.

Definition COALESCE (a b : option string) : option string :=
  match a with Some _ => a | None => b end.

(** The condition of the trigger, on [SELECT COUNT( * ) FROM user_roles]:
    "Default role is 'user', first user gets 'admin'". *)
Definition first_user_gets_admin (count : N) : app_role :=
  if (count =? 0)%N then admin else user.

Definition insert_user_role (dflt : Defaults) (uid : string) (r : app_role)
  (a : Accounts) : PgError + Accounts :=
  if existsb (fun x => role_id x =? gen_random_uuid dflt) (user_roles a)
  then inl (unique_violation "user_roles_pkey")
  else if existsb (fun x => (user_id x =? uid) && app_role_eqb (role x) r)
                  (user_roles a)
  then inl (unique_violation "user_roles_user_id_role_key")
  else inr (mkAccounts (profiles a)
              (user_roles a ++ [mkUserRole (gen_random_uuid dflt) uid r])%list).

(** [public.handle_new_user()], the trigger after an insert on [auth.users].
    An error aborts the statement and leaves the tables as they were. *)
Definition handle_new_user (dflt : Defaults) (NEW : AuthUser) (a : Accounts)
  : PgError + Accounts :=
  match COALESCE (raw_full_name NEW) (NEW_email NEW), NEW_email NEW with
  | None, _ => inl (not_null_violation "full_name" "profiles")
  | _, None => inl (not_null_violation "email" "profiles")
  | Some name, Some mail =>
      if existsb (fun p => profile_id p =? NEW_id NEW) (profiles a)
      then inl (unique_violation "profiles_pkey")
      else
        let a1 := mkAccounts
                    (profiles a ++ [mkProfile (NEW_id NEW) name mail (NOW dflt)])%list
                    (user_roles a) in
        insert_user_role dflt (NEW_id NEW)
          (first_user_gets_admin (N.of_nat (List.length (user_roles a1)))) a1
  end.

(** A sequence of sign-ups, each with what the server supplies to it; a
    sign-up whose trigger fails is rolled back. *)
Fixpoint sign_ups (l : list (Defaults * AuthUser)) (a : Accounts) : Accounts :=
  match l with
  | [] => a
  | (dflt, NEW) :: rest =>
      sign_ups rest (match handle_new_user dflt NEW a with
                     | inr a' => a'
                     | inl _ => a
                     end)
  end.

End Db.

(* ================================================================== *)
(** ** Event handlers: a state and exception monad over the page and the table *)

Module Handler.
Import Text DateFns Db.

Inductive Toast := toast_success (msg : string) | toast_error (msg : string).

(** What a handler reads and writes: the React state of its page, the table
    behind the backend, and the notifications shown so far. *)
Record World (P : Type) := mkWorld {
  page : P;
  memberships : Table;
  toasts : list Toast
}.
Arguments mkWorld {P}.
Arguments page {P}.
Arguments memberships {P}.
Arguments toasts {P}.

(** What the outside supplies to one run of a handler. *)
Record Env := mkEnv {
  new_Date : Date;               (* [new Date()], as a local calendar date *)
  toISOString : string;          (* [new Date().toISOString()] *)
  server : Defaults;             (* the column defaults of the database *)
  request_error : option string; (* the [error] of a writing request that the
                                    backend does not carry out *)
  read_error : option string;    (* the [error] of a reading request that
                                    returns no data *)
  user_id : option string        (* [user?.id] *)
}.

Definition M (P A : Type) : Type := World P -> (JsError + A) * World P.

Section Monad.
Context {P : Type}.

Definition ret {A} (a : A) : M P A := fun w => (inr a, w).

Definition bind {A B} (m : M P A) (k : A -> M P B) : M P B :=
  fun w => match m w with
           | (inr a, w') => k a w'
           | (inl e, w') => (inl e, w')
           end.

Definition throw {A} (e : JsError) : M P A := fun w => (inl e, w).

Definition try_catch {A} (body : M P A) (handler : JsError -> M P A) : M P A :=
  fun w => match body w with
           | (inl e, w') => handler e w'
           | r => r
           end.

(** A pure computation that may throw. *)
Definition lift {A} (r : JsError + A) : M P A :=
  match r with inl e => throw e | inr a => ret a end.

Definition get_page : M P P := fun w => (inr (page w), w).

Definition set_page (f : P -> P) : M P unit :=
  fun w => (inr tt, mkWorld (f (page w)) (memberships w) (toasts w)).

Definition toast (t : Toast) : M P unit :=
  fun w => (inr tt, mkWorld (page w) (memberships w) (toasts w ++ [t])%list).

(** [if (error) throw error;] *)
Definition throw_if (error : option JsError) : M P unit :=
  match error with Some e => throw e | None => ret tt end.

(** [supabase.from('memberships').update(p).eq('id', key)]. *)
Definition supabase_update (env : Env) (p : Patch) (key : string)
  : M P (option JsError) :=
  fun w => match request_error env with
           | Some e => (inr (Some (mkError e)), w)
           | None => (inr None,
                      mkWorld (page w) (update_eq_id p key (memberships w))
                              (toasts w))
           end.

(** [supabase.from('memberships').insert(v)]. *)
Definition supabase_insert (env : Env) (v : NewMembership)
  : M P (option JsError) :=
  fun w => match request_error env with
           | Some e => (inr (Some (mkError e)), w)
           | None =>
               match insert_membership (server env) v (memberships w) with
               | inl e => (inr (Some (mkError (pg_message e))), w)
               | inr t => (inr None, mkWorld (page w) t (toasts w))
               end
           end.

(** [.select('*').eq('id', key).single()], by its [data]. *)
Definition supabase_select_single (env : Env) (key : string)
  : M P (option Row.t) :=
  fun w => (inr (match read_error env with
                 | None => select_eq_id_single key (memberships w)
                 | Some _ => None
                 end), w).

(** [.select('*').eq('membership_number', number).maybeSingle()]: no row is
    no error, more than one row is. *)
Definition supabase_select_maybeSingle (env : Env) (number : string)
  : M P (option Row.t * option JsError) :=
  fun w => (inr (match read_error env with
                 | Some e => (None, Some (mkError e))
                 | None =>
                     match filter (fun r => Row.membership_number r =? number)
                                  (memberships w) with
                     | [] => (None, None)
                     | [r] => (Some r, None)
                     | _ => (None,
                             Some (mkError
                               "JSON object requested, multiple (or no) rows returned"))
                     end
                 end), w).

(** [.select('*', { count: 'exact', head: true })], by its [count]. *)
Definition supabase_count (env : Env) : M P (option N) :=
  fun w => (inr (match read_error env with
                 | None => Some (N.of_nat (List.length (memberships w)))
                 | Some _ => None
                 end), w).

End Monad.

Declare Scope handler_scope.
Delimit Scope handler_scope with handler.
Notation "x <- m ;; k" := (bind m (fun x => k))
  (at level 61, m at next level, right associativity) : handler_scope.
Notation "m ;; k" := (bind m (fun _ => k))
  (at level 61, right associativity) : handler_scope.

(** [a || b] on strings: the empty string is falsy. *)
Definition or_else (a b : string) : string := if a =? "" then b else a.

End Handler.

(* ================================================================== *)
(** ** The page "Update Membership" *)

Module UpdateMembership.
Import Text DateFns Db Handler.
Local Open Scope handler_scope.

(** [type ExtensionType = '6_months' | '1_year' | '2_years' | 'cancel']; at
    run time the action is the string of the selected radio button. *)
Definition ExtensionType (a : string) : bool :=
  (a =? "6_months") || (a =? "1_year") || (a =? "2_years") || (a =? "cancel").

Record State := mkState {
  loading : bool;
  searchLoading : bool;
  membershipNumber : string;
  membership : option Row.t;
  action : string
}.

Definition setLoading (b : bool) : M State unit :=
  set_page (fun s => mkState b (searchLoading s) (membershipNumber s)
                             (membership s) (action s)).

Definition setSearchLoading (b : bool) : M State unit :=
  set_page (fun s => mkState (loading s) b (membershipNumber s)
                             (membership s) (action s)).

Definition setMembershipNumber (n : string) : M State unit :=
  set_page (fun s => mkState (loading s) (searchLoading s) n
                             (membership s) (action s)).

Definition setMembership (m : option Row.t) : M State unit :=
  set_page (fun s => mkState (loading s) (searchLoading s) (membershipNumber s)
                             m (action s)).

Definition setAction (a : string) : M State unit :=
  set_page (fun s => mkState (loading s) (searchLoading s) (membershipNumber s)
                             (membership s) a).

Section Search.

(** [String.prototype.trim] and [String.prototype.toUpperCase]. *)
Variables trim toUpperCase : string -> string.

(** [searchMembership]. *)
Definition searchMembership (env : Env) : M State unit :=
  st <- get_page ;;
  if trim (membershipNumber st) =? "" then
    toast (toast_error "Please enter a membership number")
  else
    setSearchLoading true ;;
    setMembership None ;;
    try_catch
      (r <- supabase_select_maybeSingle env
              (toUpperCase (trim (membershipNumber st))) ;;
       throw_if (snd r) ;;
       match fst r with
       | None => toast (toast_error "Membership not found")
       | Some data => setMembership (Some data) ;; setAction "6_months"
       end)
      (fun error =>
         toast (toast_error
                  (or_else (message error) "Failed to search membership"))) ;;
    setSearchLoading false.

(** The input field: [setMembershipNumber(e.target.value.toUpperCase())]. *)
Definition onChange (value : string) : M State unit :=
  setMembershipNumber (toUpperCase value).

End Search.

(** The button "Clear". *)
Definition onClear : M State unit :=
  setMembership None ;; setMembershipNumber "".

(** [calculateNewEndDate(currentEndDate, extension)]; an invalid date passes
    through [addMonths] and [addYears] and makes [format] throw. *)
Definition calculateNewEndDate (currentEndDate extension : string)
  : JsError + string :=
  let endDate := parseISO currentEndDate in
  if extension =? "6_months" then
    format (option_map (fun d => addMonths d 6) endDate) yyyy_MM_dd
  else if extension =? "1_year" then
    format (option_map (fun d => addYears d 1) endDate) yyyy_MM_dd
  else if extension =? "2_years" then
    format (option_map (fun d => addYears d 2) endDate) yyyy_MM_dd
  else inr currentEndDate.

(** [handleUpdate]: [membership] and [action] are the values of the render
    the handler was created in. *)
Definition handleUpdate (env : Env) : M State unit :=
  st <- get_page ;;
  match membership st with
  | None => ret tt
  | Some m =>
      setLoading true ;;
      try_catch
        ((if action st =? "cancel" then
            error <- supabase_update env
                       (mkPatch None (Some "cancelled") (Some (toISOString env)))
                       (Row.id m) ;;
            throw_if error ;;
            toast (toast_success "Membership cancelled successfully")
          else
            newEndDate <- lift (calculateNewEndDate (Row.end_date m) (action st)) ;;
            error <- supabase_update env
                       (mkPatch (Some newEndDate) (Some "active")
                                (Some (toISOString env)))
                       (Row.id m) ;;
            throw_if error ;;
            shown <- lift (format (parseISO newEndDate) MMM_dd_yyyy) ;;
            toast (toast_success ("Membership extended until " ++ shown))) ;;
         data <- supabase_select_single env (Row.id m) ;;
         match data with
         | Some row => setMembership (Some row)
         | None => ret tt
         end)
        (fun error =>
           toast (toast_error
                    (or_else (message error) "Failed to update membership"))) ;;
      setLoading false
  end.

End UpdateMembership.

(* ================================================================== *)
(** ** The page "Add Membership" *)

Module AddMembership.
Import Text DateFns Db Handler.
Local Open Scope handler_scope.

Record FormData := mkForm {
  memberName : string;
  email : string;
  phone : string;
  address : string;
  duration : string
}.

Record State := mkState { formData : FormData; loading : bool }.

Definition setLoading (b : bool) : M State unit :=
  set_page (fun s => mkState (formData s) b).

Definition setFormData (f : FormData) : M State unit :=
  set_page (fun s => mkState f (loading s)).

(** [calculateEndDate(duration)] with [startDate = new Date()]; the [switch]
    has no default, so any other string falls through to [undefined]
    ([None]).  The current date is never invalid: [format] does not throw. *)
Definition calculateEndDate (startDate : Date) (duration : string)
  : option string :=
  if duration =? "6_months" then
    Some (render (addMonths startDate 6) yyyy_MM_dd)
  else if duration =? "1_year" then
    Some (render (addYears startDate 1) yyyy_MM_dd)
  else if duration =? "2_years" then
    Some (render (addYears startDate 2) yyyy_MM_dd)
  else None.

(** The template of the membership number,
    [`MEM${String((totalCount || 0) + 1).padStart(6, '0')}`]. *)
Definition membershipNumber (totalCount : option N) : string :=
  let n := match totalCount with Some c => c | None => 0%N end in
  "MEM" ++ padStart (String_of_N (n + 1)) 6 "0".

(** [generateMembershipNumber()]: the first request and [count] derived from
    it are not used by the result. *)
Definition generateMembershipNumber (env : Env) : M State string :=
  totalCount <- supabase_count env ;;
  ret (membershipNumber totalCount).

Section Schema.

(** The e-mail test of the validation library. *)
Variable zod_email : string -> bool.

Definition between (lo hi : nat) (s : string) : bool :=
  ((lo <=? String.length s) && (String.length s <=? hi))%nat.

Definition too_long (hi : nat) : string :=
  "String must contain at most " ++ String_of_N (N.of_nat hi) ++ " character(s)".

(** [membershipSchema.safeParse(formData)], by the message of its first
    issue. *)
Definition first_issue (f : FormData) : option string :=
  if (String.length (memberName f) <? 2)%nat
  then Some "Name must be at least 2 characters"
  else if (100 <? String.length (memberName f))%nat then Some (too_long 100)
  else if negb (zod_email (email f)) then Some "Invalid email address"
  else if (String.length (phone f) <? 10)%nat
  then Some "Phone must be at least 10 digits"
  else if (15 <? String.length (phone f))%nat then Some (too_long 15)
  else if (String.length (address f) <? 5)%nat
  then Some "Address must be at least 5 characters"
  else if (200 <? String.length (address f))%nat then Some (too_long 200)
  else if (duration f =? "6_months") || (duration f =? "1_year")
          || (duration f =? "2_years")
  then None
  else Some ("Invalid enum value. Expected '6_months' | '1_year' | '2_years', received '"
             ++ duration f ++ "'").

Definition handleSubmit (env : Env) : M State unit :=
  st <- get_page ;;
  setLoading true ;;
  match first_issue (formData st) with
  | Some msg => toast (toast_error msg) ;; setLoading false
  | None =>
      try_catch
        (number <- generateMembershipNumber env ;;
         let endDate := calculateEndDate (new_Date env) (duration (formData st)) in
         error <- supabase_insert env
                    (mkNew number (memberName (formData st)) (email (formData st))
                           (phone (formData st)) (address (formData st))
                           (duration (formData st)) endDate (user_id env)) ;;
         throw_if error ;;
         toast (toast_success
                  ("Membership created successfully! Number: " ++ number)) ;;
         setFormData (mkForm "" "" "" "" "6_months"))
        (fun error =>
           toast (toast_error
                    (or_else (message error) "Failed to create membership"))) ;;
      setLoading false
  end.

End Schema.

End AddMembership.

(* ================================================================== *)
(** ** The two pages over one table *)

Module App.
Import Text DateFns Db Handler.
Local Open Scope handler_scope.

(** Two sessions of administrators, one on each page, and the table of the
    backend they share. *)
Record Pages := mkPages {
  add_page : AddMembership.State;
  update_page : UpdateMembership.State
}.

Definition on_add {A} (m : M AddMembership.State A) : M Pages A :=
  fun w =>
    let '(r, w') := m (mkWorld (add_page (page w)) (memberships w) (toasts w)) in
    (r, mkWorld (mkPages (page w') (update_page (page w)))
                (memberships w') (toasts w')).

Definition on_update {A} (m : M UpdateMembership.State A) : M Pages A :=
  fun w =>
    let '(r, w') := m (mkWorld (update_page (page w)) (memberships w) (toasts w)) in
    (r, mkWorld (mkPages (add_page (page w)) (page w'))
                (memberships w') (toasts w')).

(** What an administrator can do on the two pages. *)
Inductive Event :=
| fill_form (f : AddMembership.FormData)   (* the inputs of "Add Membership" *)
| submit_form                              (* [handleSubmit] *)
| type_number (value : string)             (* the search field *)
| search                                   (* [searchMembership] *)
| select_action (a : string)               (* the radio group *)
| update                                   (* [handleUpdate] *)
| clear.                                   (* the button "Clear" *)

Section Run.

Variable zod_email : string -> bool.
Variables trim toUpperCase : string -> string.

Definition handle (env : Env) (e : Event) : M Pages unit :=
  match e with
  | fill_form f => on_add (AddMembership.setFormData f)
  | submit_form => on_add (AddMembership.handleSubmit zod_email env)
  | type_number v => on_update (UpdateMembership.onChange toUpperCase v)
  | search => on_update (UpdateMembership.searchMembership trim toUpperCase env)
  | select_action a => on_update (UpdateMembership.setAction a)
  | update => on_update (UpdateMembership.handleUpdate env)
  | clear => on_update UpdateMembership.onClear
  end.

(** A run: each event with what the outside supplies to it. *)
Fixpoint play (steps : list (Env * Event)) (w : World Pages) : World Pages :=
  match steps with
  | [] => w
  | (env, e) :: rest => play rest (snd (handle env e w))
  end.

End Run.

(** Both pages as they are first rendered, over a table. *)
Definition initial (t : Table) : World Pages :=
  mkWorld (mkPages (AddMembership.mkState
                      (AddMembership.mkForm "" "" "" "" "6_months") false)
                   (UpdateMembership.mkState false false "" None "6_months"))
          t [].

End App.

(* ================================================================== *)
(** ** The specification's own words, and the invariant of the table *)

Module Spec.
Import Text DateFns Db Handler App.

Fixpoint zeros (k : nat) : string :=
  match k with
  | O => ""
  | S k' => String "0" (zeros k')
  end.

(** "[n] left-padded with zeros to [width] digits": the decimal numeral of
    [n], with as many zeros in front as it is short of [width]. *)
Definition zero_pad (n : N) (width : nat) : string :=
  zeros (width - String.length (String_of_N n)) ++ String_of_N n.

(** ["MEM"] concatenated with [(existingMembershipCount + 1)] left-padded
    with zeros to 6 digits. *)
Definition nextMembershipNumber (existingMembershipCount : N) : string :=
  "MEM" ++ zero_pad (existingMembershipCount + 1) 6.

(** [endDate >= startDate], on a row as the database reads its two dates. *)
Definition row_ok (r : Row.t) : bool :=
  match date_in (Row.start_date r), date_in (Row.end_date r) with
  | Some s, Some e => date_leb s e
  | _, _ => false
  end.

Definition table_ok (t : Table) : bool := forallb row_ok t.

(** The membership shown on the update page is a copy of a row, possibly a
    stale one: its dates are ordered, and the row of the table with its [id]
    still starts on the same day ([start_date] is never written). *)
Definition coherent (w : World UpdateMembership.State) : bool :=
  match UpdateMembership.membership (page w) with
  | None => true
  | Some m =>
      row_ok m &&
      forallb (fun r => if Row.id r =? Row.id m
                        then Row.start_date r =? Row.start_date m
                        else true)
              (memberships w)
  end.

Definition update_page_ok (w : World UpdateMembership.State) : bool :=
  table_ok (memberships w) && coherent w.

(** The update page within the two sessions. *)
Definition update_view (w : World Pages) : World UpdateMembership.State :=
  mkWorld (update_page (page w)) (memberships w) (toasts w).

Definition add_view (w : World Pages) : World AddMembership.State :=
  mkWorld (add_page (page w)) (memberships w) (toasts w).

(** The membership shown is the copy of a row still in the table. *)
Definition known (w : World UpdateMembership.State) : bool :=
  match UpdateMembership.membership (page w) with
  | None => true
  | Some m => existsb (fun r => Row.id r =? Row.id m) (memberships w)
  end.

(** [id UUID PRIMARY KEY]: no two rows of the table share their [id]. *)
Fixpoint distinct (l : list string) : bool :=
  match l with
  | [] => true
  | x :: rest => negb (existsb (String.eqb x) rest) && distinct rest
  end.

Definition primary_key_ok (t : Table) : bool := distinct (map Row.id t).

(** The invariant of the two sessions. *)
Definition system_ok (w : World Pages) : bool :=
  update_page_ok (update_view w) && known (update_view w)
  && primary_key_ok (memberships w).

(** The two clocks at a creation: the browser's date and the database's
    [CURRENT_DATE] are calendar dates of our era, and the database's date is
    not after the browser's date six months on, the earliest end date the
    page computes.  The browser may be behind the database, by a day as in a
    time zone west of it, or by months. *)
Definition clocks_ok (env : Env) : bool :=
  valid (new_Date env) && (1 <=? getFullYear (new_Date env))%Z &&
  valid (CURRENT_DATE (server env)) &&
  (1 <=? getFullYear (CURRENT_DATE (server env)))%Z &&
  date_leb (CURRENT_DATE (server env)) (addMonths (new_Date env) 6).

(** The date a computed end date denotes once stored. *)
Definition stored (r : JsError + string) : option Date :=
  match r with inr t => date_in t | inl _ => None end.

Definition stored_opt (r : option string) : option Date :=
  match r with Some t => date_in t | None => None end.

(** The same run of a handler under another browser clock. *)
Definition at_date (env : Env) (today : Date) : Env :=
  mkEnv today (toISOString env) (server env) (request_error env)
        (read_error env) (user_id env).

Definition is_extension (a : string) : bool :=
  (a =? "6_months") || (a =? "1_year") || (a =? "2_years").

(** Two measures of a date used in the proofs: the months, and the days of
    32-day months, since year 0.  On calendar dates the second one orders as
    [date_compare] does. *)
Definition month_index (d : Date) : Z := 12 * getFullYear d + getMonth d.
Definition day_key (d : Date) : Z := 32 * month_index d + getDate d.

(** The invariant, spelled out. *)
Record Ordered (page : UpdateMembership.State) (t : Table) : Prop := {
  rows_ordered : forall r, In r t -> row_ok r = true;
  ids_distinct : NoDup (map Row.id t);
  copy_ordered : forall m, UpdateMembership.membership page = Some m ->
                           row_ok m = true;
  copy_start : forall m r, UpdateMembership.membership page = Some m ->
                           In r t -> Row.id r = Row.id m ->
                           Row.start_date r = Row.start_date m;
  copy_known : forall m, UpdateMembership.membership page = Some m ->
                         In (Row.id m) (map Row.id t)
}.

(** One administrator, then users. *)
Definition admin_then_users (roles : list app_role) : Prop :=
  roles = [] \/ exists n, roles = admin :: repeat user n.

(** The creations of a run happen under such clocks. *)
Definition step_ok (s : Env * Event) : bool :=
  match snd s with
  | submit_form => clocks_ok (fst s)
  | _ => true
  end.

(** The world a handler leaves behind. *)
Definition run {P A} (m : M P A) (w : World P) : World P := snd (m w).

End Spec.

(* ================================================================== *)
(** ** Sample data *)

Module Sample.
Import Text DateFns Db Handler App.

(** A browser on 15 June 2025 in front of a backend that carries out what it
    is asked. *)
Definition env0 : Env :=
  mkEnv (mkDate 2025 5 15) "2025-06-15T09:00:00.000Z"
        (mkDefaults "7d0c7a1e" (mkDate 2025 5 15) "2025-06-15 09:00:00+00")
        None None (Some "admin-1").

Definition member (state from to : string) : Row.t :=
  Row.mk "4be1a2f0" "MEM000001" "Ada Byron" "ada@example.org" "0123456789"
         "12 St James Square" "6_months" state from to
         (Some "admin-1") "2020-01-01 08:00:00+00" "2020-07-02 08:00:00+00".

(** A cancelled membership, found on the update page, "Extend 6 Months"
    selected (the default after a search). *)
Definition cancelled_row : Row.t := member "cancelled" "2024-01-31" "2024-07-31".

Definition cancelled_world : World UpdateMembership.State :=
  mkWorld (UpdateMembership.mkState false false "MEM000001"
             (Some cancelled_row) "6_months")
          [cancelled_row] [].

(** A membership that ran out on 1 January 2020, marked expired, found on
    the update page, "Extend 1 Year" selected. *)
Definition expired_row : Row.t := member "expired" "2019-01-01" "2020-01-01".

Definition expired_world : World UpdateMembership.State :=
  mkWorld (UpdateMembership.mkState false false "MEM000001"
             (Some expired_row) "1_year")
          [expired_row] [].

(** The same backend on 15 June 2025, seen from a browser whose clock still
    reads the evening of 14 June. *)
Definition env_evening : Env :=
  mkEnv (mkDate 2025 5 14) "2025-06-15T03:00:00.000Z"
        (mkDefaults "9a3e5b72" (mkDate 2025 5 15) "2025-06-15 03:00:00+00")
        None None (Some "admin-1").

(** The same backend, seen from a browser whose clock reads 1 January 2024. *)
Definition env_lagging : Env :=
  mkEnv (mkDate 2024 0 1) "2024-01-01T09:00:00.000Z"
        (mkDefaults "c41d88e0" (mkDate 2025 5 15) "2025-06-15 09:00:00+00")
        None None (Some "admin-1").

(** A six-month membership is added on the page as first rendered. *)
Definition creation (env : Env) : list (Env * Event) :=
  [ (env, fill_form (AddMembership.mkForm "Grace Hopper" "grace@example.org"
                       "0123456789" "1 Navy Yard" "6_months"));
    (env, submit_form) ].

(** An evening at the desk: a six-month membership is added from the browser
    a day behind the database, next to one membership already there, then
    looked up and extended by a year. *)
Definition desk_evening : list (Env * Event) :=
  (creation env_evening ++
   [ (env_evening, type_number "MEM000002");
     (env_evening, search);
     (env_evening, select_action "1_year");
     (env_evening, update) ])%list.

(** A day at the desk: a member is added, the cancelled membership is looked
    up and extended by the preselected six months, then cancelled again. *)
Definition desk_day : list (Env * Event) :=
  [ (env0, fill_form (AddMembership.mkForm "Grace Hopper" "grace@example.org"
                        "0123456789" "1 Navy Yard" "1_year"));
    (env0, submit_form);
    (env0, type_number "MEM000001");
    (env0, search);
    (env0, update);
    (env0, select_action "cancel");
    (env0, update) ].

End Sample.

(* ================================================================== *)
(** ** Row-level security of [memberships] *)

Module Policy.
Import Text DateFns Db.

(** [public.has_role(_user_id, _role)]; [auth.uid()] is [None] when the
    request carries no identity, and no row has a null [user_id]. *)
Definition has_role (a : Accounts) (_user_id : option string)
  (_role : app_role) : bool :=
  match _user_id with
  | None => false
  | Some u =>
      existsb (fun x => (Db.user_id x =? u) && app_role_eqb (role x) _role)
              (user_roles a)
  end.


Inductive Command := SELECT | INSERT | UPDATE | DELETE.

(** The two policies of the table, read together: "Admins can do everything
    on memberships" ([FOR ALL], any role) and "Authenticated users can view
    memberships" ([FOR SELECT TO authenticated USING (true)]).  Neither
    looks at the row. *)
Definition allowed (a : Accounts) (uid : option string) (c : Command) : bool :=
  has_role a uid admin
  || match c, uid with
     | SELECT, Some _ => true
     | _, _ => false
     end.

Inductive WriteError :=
| denied_by_policy (relation : string)
| rejected (e : PgError).

(** An [UPDATE] sees only the rows its policies let through. *)
Definition rls_update (a : Accounts) (uid : option string) (p : Patch)
  (key : string) (t : Table) : Table :=
  if allowed a uid UPDATE then update_eq_id p key t else t.

(** An [INSERT] of a row its policies do not let through is an error. *)
Definition rls_insert (a : Accounts) (uid : option string) (dflt : Defaults)
  (v : NewMembership) (t : Table) : WriteError + Table :=
  if allowed a uid INSERT then
    match insert_membership dflt v t with
    | inl e => inl (rejected e)
    | inr t' => inr t'
    end
  else inl (denied_by_policy "memberships").

Definition rls_select (a : Accounts) (uid : option string) (t : Table) : Table :=
  if allowed a uid SELECT then t else [].

End Policy.

(* ================================================================== *)
(** ** The page "Reports" *)

Module Reports.
Import Text DateFns Db Handler.
Local Open Scope handler_scope.

Record MembershipStats := mkStats {
  total : nat;
  active : nat;
  cancelled : nat;
  expired : nat
}.

(** The state of the component; its list [memberships] is the result of
    the last fetch, not the table [Handler.memberships] of the backend. *)
Record State := mkState {
  memberships : list Row.t;
  stats : MembershipStats;
  dataLoading : bool
}.

Definition setMemberships (l : list Row.t) : M State unit :=
  set_page (fun s => mkState l (stats s) (dataLoading s)).

Definition setStats (x : MembershipStats) : M State unit :=
  set_page (fun s => mkState (memberships s) x (dataLoading s)).

Definition setDataLoading (b : bool) : M State unit :=
  set_page (fun s => mkState (memberships s) (stats s) b).

(** The state of the first render. *)
Definition initial : State := mkState [] (mkStats 0 0 0 0) true.

Section Fetch.

(** [.order('created_at', { ascending: false })], the ordering of the
    database on the timestamp column. *)
Variable order_created_at_desc : Table -> Table.

(** [.select('*').order(...)], by its [data] ([None] with an [error]). *)
Definition supabase_select_all (env : Env) : M State (option (list Row.t)) :=
  fun w => (inr (match read_error env with
                 | None => Some (order_created_at_desc (Handler.memberships w))
                 | Some _ => None
                 end), w).

(** [fetchMemberships]. *)
Definition fetchMemberships (env : Env) : M State unit :=
  setDataLoading true ;;
  data <- supabase_select_all env ;;
  match data with
  | Some data =>
      setMemberships data ;;
      let active := List.length (filter (fun m => Row.status m =? "active") data) in
      let cancelled :=
        List.length (filter (fun m => Row.status m =? "cancelled") data) in
      let expired := List.length (filter (fun m => Row.status m =? "expired") data) in
      setStats (mkStats (List.length data) active cancelled expired)
  | None => ret tt
  end ;;
  setDataLoading false.

End Fetch.

End Reports.

(* ================================================================== *)
(** ** Predicates of the further properties *)

Module Facts.
Import Text DateFns Db Handler App Spec.

(** The columns no request of the pages names after the insert. *)
Definition fixed_part (r : Row.t)
  : string * string * string * string * string * string * string * string
    * option string * string :=
  (Row.id r, Row.membership_number r, Row.member_name r, Row.email r,
   Row.phone r, Row.address r, Row.duration r, Row.start_date r,
   Row.created_by r, Row.created_at r).

(** Every column but [updated_at]. *)
Definition but_updated_at (r : Row.t) :=
  (fixed_part r, Row.status r, Row.end_date r).

(** The months each of the three extensions adds. *)
Definition months (a : string) : Z :=
  if a =? "6_months" then 6 else if a =? "1_year" then 12 else 24.

(** [membership_number TEXT UNIQUE]. *)
Definition numbers_distinct (t : Table) : bool :=
  distinct (map Row.membership_number t).

(** The numbers of a table are those of the counts 0, 1, 2, ... in order. *)
Definition sequential (t : Table) : Prop :=
  map Row.membership_number t
  = map (fun i => AddMembership.membershipNumber (Some (N.of_nat i)))
        (seq 0 (List.length t)).

(** A run of form submissions on the page "Add Membership". *)
Fixpoint submissions (zod_email : string -> bool)
  (l : list (Env * AddMembership.FormData)) (t : Table) : Table :=
  match l with
  | [] => t
  | (env, f) :: rest =>
      submissions zod_email rest
        (Handler.memberships
           (snd (AddMembership.handleSubmit zod_email env
                   (mkWorld (AddMembership.mkState f false) t []))))
  end.

(** What the schema of the form asks of its five fields. *)
Definition form_ok (zod_email : string -> bool) (f : AddMembership.FormData)
  : Prop :=
  (2 <= String.length (AddMembership.memberName f) <= 100)%nat
  /\ zod_email (AddMembership.email f) = true
  /\ (10 <= String.length (AddMembership.phone f) <= 15)%nat
  /\ (5 <= String.length (AddMembership.address f) <= 200)%nat
  /\ is_extension (AddMembership.duration f) = true.

(** The statistics of the page "Reports" describe the list it shows. *)
Definition stats_describe (st : Reports.State) : Prop :=
  Reports.total (Reports.stats st) = List.length (Reports.memberships st)
  /\ Reports.active (Reports.stats st)
     = count_occ string_dec (map Row.status (Reports.memberships st)) "active"
  /\ Reports.cancelled (Reports.stats st)
     = count_occ string_dec (map Row.status (Reports.memberships st)) "cancelled"
  /\ Reports.expired (Reports.stats st)
     = count_occ string_dec (map Row.status (Reports.memberships st)) "expired".

(** [membership_status AS ENUM ('active', 'cancelled', 'expired')]. *)
Definition membership_status (s : string) : bool :=
  (s =? "active") || (s =? "cancelled") || (s =? "expired").


End Facts.

(* ================================================================== *)
(** ** Numerals: reading back what was printed, and how long it is *)

Section Numerals.
Import Text Spec.

Lemma cycle_zeros n : forall cur,
  cur = "" \/ cur = "0" -> cycle "0" cur n = zeros n.
Proof.
  induction n as [|n IH]; intros cur [-> | ->]; simpl; try reflexivity;
    f_equal; apply IH; auto.
Qed.

Lemma padStart_zeros s w :
  padStart s w "0" = zeros (w - String.length s) ++ s.
Proof.
  unfold padStart. destruct (Nat.leb_spec w (String.length s)) as [H|H].
  - replace (w - String.length s)%nat with 0%nat by lia. reflexivity.
  - simpl. rewrite cycle_zeros by auto. reflexivity.
Qed.

Lemma append_assoc (a b c : string) : (a ++ b) ++ c = a ++ (b ++ c).
Proof. induction a as [|x a IH]; simpl; [reflexivity | now rewrite IH]. Qed.

Lemma append_nil_r (a : string) : a ++ "" = a.
Proof. induction a as [|x a IH]; simpl; [reflexivity | now rewrite IH]. Qed.

Lemma length_append (a b : string) :
  String.length (a ++ b) = (String.length a + String.length b)%nat.
Proof. induction a as [|x a IH]; simpl; [reflexivity | now rewrite IH]. Qed.

Lemma length_zeros k : String.length (zeros k) = k.
Proof. induction k as [|k IH]; simpl; [reflexivity | now rewrite IH]. Qed.

Lemma digits_acc_app fuel : forall n acc,
  digits_acc fuel n acc = digits_acc fuel n "" ++ acc.
Proof.
  induction fuel as [|f IH]; intros n acc; simpl; [reflexivity|].
  destruct (n / 10 =? 0)%N; [reflexivity|].
  rewrite IH. rewrite (IH _ (String _ "")). now rewrite append_assoc.
Qed.

Lemma digit_of_digit_char d :
  (d < 10)%N -> digit_of_ascii (digit_char d) = Some d.
Proof.
  intros H.
  assert (d = 0 \/ d = 1 \/ d = 2 \/ d = 3 \/ d = 4 \/ d = 5 \/ d = 6
          \/ d = 7 \/ d = 8 \/ d = 9)%N as C by lia.
  repeat (destruct C as [-> | C]; [reflexivity|]). subst. reflexivity.
Qed.

Lemma div10_lt_pow2 f n : (n < 2 ^ N.of_nat (S f) -> n / 10 < 2 ^ N.of_nat f)%N.
Proof.
  intros H. rewrite Nat2N.inj_succ, N.pow_succ_r' in H.
  apply N.Div0.div_lt_upper_bound.
  generalize dependent (2 ^ N.of_nat f)%N. intros; lia.
Qed.

(** Reading a printed number from accumulator 0 yields the number and goes
    on with what follows it. *)
Lemma read_N_digits_acc fuel : forall n rest,
  (n < 2 ^ N.of_nat fuel)%N -> n <> 0%N ->
  read_N (digits_acc fuel n rest) 0 = read_N rest n.
Proof.
  induction fuel as [|f IH]; intros n rest Hlt Hn.
  - simpl in Hlt. lia.
  - cbn [digits_acc].
    assert (Hd : (n mod 10 < 10)%N) by (apply N.mod_lt; lia).
    pose proof (N.div_mod n 10 ltac:(lia)) as Hdm.
    destruct (N.eqb_spec (n / 10) 0) as [Hz|Hz].
    + cbn [read_N]. rewrite digit_of_digit_char by exact Hd.
      f_equal. lia.
    + rewrite IH by (auto using div10_lt_pow2).
      cbn [read_N]. rewrite digit_of_digit_char by exact Hd.
      f_equal. lia.
Qed.

Lemma fuel_enough n : (n < 2 ^ N.of_nat (S (N.to_nat (N.size n))))%N.
Proof.
  rewrite Nat2N.inj_succ, N2Nat.id, N.pow_succ_r'.
  pose proof (N.size_gt n). lia.
Qed.

Lemma read_N_String_of_N n rest :
  read_N (String_of_N n ++ rest) 0 = read_N rest n.
Proof.
  unfold String_of_N. rewrite <- digits_acc_app.
  destruct (N.eq_dec n 0) as [-> | Hn]; [reflexivity|].
  apply read_N_digits_acc; [apply fuel_enough | exact Hn].
Qed.

Lemma read_N_zeros k rest : read_N (zeros k ++ rest) 0 = read_N rest 0.
Proof. induction k as [|k IH]; simpl; [reflexivity | exact IH]. Qed.

Lemma read_N_padded n w rest :
  read_N (padStart (String_of_N n) w "0" ++ rest) 0 = read_N rest n.
Proof.
  rewrite padStart_zeros, append_assoc, read_N_zeros.
  apply read_N_String_of_N.
Qed.

(** A printed number of less than [10 ^ k] has at most [k] digits, one of at
    least [10 ^ k] has more. *)
Lemma length_digits_acc_le fuel : forall n acc k,
  (n < 2 ^ N.of_nat fuel)%N -> (n < 10 ^ N.of_nat (S k))%N ->
  (String.length (digits_acc fuel n acc) <= S k + String.length acc)%nat.
Proof.
  induction fuel as [|f IH]; intros n acc k Hf Hk.
  - simpl. lia.
  - cbn [digits_acc]. destruct (N.eqb_spec (n / 10) 0) as [Hz|Hz].
    + simpl. lia.
    + destruct k as [|k].
      * exfalso. apply Hz. apply N.div_small. simpl in Hk. lia.
      * etransitivity.
        -- apply (IH _ _ k); [auto using div10_lt_pow2|].
           rewrite Nat2N.inj_succ, N.pow_succ_r' in Hk.
           apply N.Div0.div_lt_upper_bound. lia.
        -- simpl. lia.
Qed.

Lemma length_digits_acc_gt fuel : forall n acc k,
  (n < 2 ^ N.of_nat fuel)%N -> (10 ^ N.of_nat k <= n)%N ->
  (S k + String.length acc <= String.length (digits_acc fuel n acc))%nat.
Proof.
  induction fuel as [|f IH]; intros n acc k Hf Hk.
  - simpl in Hf. pose proof (N.pow_nonzero 10 (N.of_nat k)). lia.
  - cbn [digits_acc]. destruct (N.eqb_spec (n / 10) 0) as [Hz|Hz].
    + destruct k as [|k]; [simpl; lia|].
      exfalso. rewrite Nat2N.inj_succ, N.pow_succ_r' in Hk.
      pose proof (N.pow_nonzero 10 (N.of_nat k)).
      pose proof (N.div_mod n 10 ltac:(lia)).
      pose proof (N.mod_lt n 10 ltac:(lia)). lia.
    + destruct k as [|k].
      * destruct f as [|f].
        -- exfalso. apply Hz. apply N.div_small. simpl in Hf. lia.
        -- cbn [digits_acc]. destruct (n / 10 / 10 =? 0)%N.
           ++ simpl. lia.
           ++ pose proof (digits_acc_app f (n / 10 / 10)
                (String (digit_char (n / 10 mod 10))
                        (String (digit_char (n mod 10)) acc))) as E.
              rewrite E, length_append. simpl. lia.
      * etransitivity; [| apply (IH _ _ k); [auto using div10_lt_pow2|]].
        -- simpl. lia.
        -- rewrite Nat2N.inj_succ, N.pow_succ_r' in Hk.
           apply N.div_le_lower_bound; lia.
Qed.

Lemma length_String_of_N_le n k :
  (n < 10 ^ N.of_nat (S k))%N -> (String.length (String_of_N n) <= S k)%nat.
Proof.
  intros H. pose proof (length_digits_acc_le _ n "" k (fuel_enough n) H).
  cbn [String.length] in *. unfold String_of_N. lia.
Qed.

Lemma length_String_of_N_gt n k :
  (10 ^ N.of_nat k <= n)%N -> (k < String.length (String_of_N n))%nat.
Proof.
  intros H. pose proof (length_digits_acc_gt _ n "" k (fuel_enough n) H).
  cbn [String.length] in *. unfold String_of_N. lia.
Qed.

Lemma substring_all s : substring 0 (String.length s) s = s.
Proof. induction s as [|c s IH]; simpl; [reflexivity | now rewrite IH]. Qed.

Lemma length_substring_0 n : forall s,
  (n <= String.length s)%nat -> String.length (substring 0 n s) = n.
Proof.
  induction n as [|n IH]; intros [|c s] H; simpl in *; try reflexivity; try lia.
  rewrite IH by lia. reflexivity.
Qed.

End Numerals.

(* ================================================================== *)
(** ** Calendar arithmetic *)

Section Calendar.
Import Text DateFns Db Spec.
Local Open Scope Z_scope.

Lemma getDaysInMonth_bounds y m : 28 <= getDaysInMonth y m <= 31.
Proof.
  unfold getDaysInMonth.
  destruct (m =? 1); [destruct (isLeapYear y); lia|].
  destruct ((m =? 3) || (m =? 5) || (m =? 8) || (m =? 10))%bool; lia.
Qed.

Lemma valid_spec d :
  valid d = true <->
  0 <= getMonth d <= 11 /\
  1 <= getDate d <= getDaysInMonth (getFullYear d) (getMonth d).
Proof.
  unfold valid. rewrite !andb_true_iff, !Z.leb_le. tauto.
Qed.

Lemma valid_setMonth_day0 d m : valid (setMonth_day0 d m) = true.
Proof.
  apply valid_spec. unfold setMonth_day0. cbn [getMonth getDate getFullYear].
  pose proof (Z.mod_pos_bound (m - 1) 12 ltac:(lia)).
  pose proof (getDaysInMonth_bounds (getFullYear d + (m - 1) / 12) ((m - 1) mod 12)).
  lia.
Qed.

(** The result of [addMonths] is a day of the calendar. *)
Lemma addMonths_valid d n : valid d = true -> valid (addMonths d n) = true.
Proof.
  intros Hd. unfold addMonths. destruct (n =? 0); [exact Hd|].
  pose proof (valid_setMonth_day0 d (getMonth d + n + 1)) as He.
  destruct (Z.geb_spec (getDate d) (getDate (setMonth_day0 d (getMonth d + n + 1))))
    as [_|Hlt]; [exact He|].
  apply valid_spec in Hd. apply valid_spec. cbn [getMonth getDate getFullYear].
  apply valid_spec in He. unfold setMonth_day0 in *.
  cbn [getMonth getDate getFullYear] in *. lia.
Qed.

(** It lies [n] months after the date it was given. *)
Lemma addMonths_month_index d n :
  month_index (addMonths d n) = month_index d + n.
Proof.
  unfold addMonths. destruct (Z.eqb_spec n 0) as [-> | Hn]; [lia|].
  assert (E : month_index (setMonth_day0 d (getMonth d + n + 1))
              = month_index d + n).
  { unfold month_index, setMonth_day0. cbn [getMonth getFullYear].
    replace (getMonth d + n + 1 - 1) with (getMonth d + n) by lia.
    pose proof (Z.div_mod (getMonth d + n) 12 ltac:(lia)). lia. }
  destruct (getDate d >=? _); [exact E|].
  unfold month_index in *. cbn [getMonth getFullYear] in *. exact E.
Qed.

(** The day is the day of the start, cut to the length of the month. *)
Lemma addMonths_clamps d n :
  n <> 0 ->
  getDate (addMonths d n)
  = Z.min (getDate d)
          (getDaysInMonth (getFullYear (addMonths d n)) (getMonth (addMonths d n))).
Proof.
  intros Hn. unfold addMonths. destruct (Z.eqb_spec n 0) as [|_]; [contradiction|].
  destruct (Z.geb_spec (getDate d) (getDate (setMonth_day0 d (getMonth d + n + 1))))
    as [Hge|Hlt]; unfold setMonth_day0 in *;
    cbn [getMonth getDate getFullYear] in *; lia.
Qed.

Lemma date_compare_key a b :
  valid a = true -> valid b = true ->
  date_compare a b = (day_key a ?= day_key b).
Proof.
  intros Ha Hb. apply valid_spec in Ha. apply valid_spec in Hb.
  pose proof (getDaysInMonth_bounds (getFullYear a) (getMonth a)).
  pose proof (getDaysInMonth_bounds (getFullYear b) (getMonth b)).
  unfold date_compare, day_key, month_index.
  destruct (Z.compare_spec (getFullYear a) (getFullYear b));
    [destruct (Z.compare_spec (getMonth a) (getMonth b));
       [destruct (Z.compare_spec (getDate a) (getDate b))| |] | |];
    symmetry;
    first [apply Z.compare_eq_iff | apply Z.compare_lt_iff | apply Z.compare_gt_iff];
    lia.
Qed.

Lemma date_lt_key a b :
  valid a = true -> valid b = true -> (date_lt a b <-> day_key a < day_key b).
Proof.
  intros Ha Hb. unfold date_lt. rewrite date_compare_key by assumption.
  apply Z.compare_lt_iff.
Qed.

Lemma date_leb_key a b :
  valid a = true -> valid b = true ->
  (date_leb a b = true <-> day_key a <= day_key b).
Proof.
  intros Ha Hb. unfold date_leb. rewrite date_compare_key by assumption.
  destruct (Z.compare_spec (day_key a) (day_key b)); split;
    intros; try reflexivity; try discriminate; lia.
Qed.

Lemma day_key_addMonths d m n :
  valid d = true -> m < n ->
  day_key (addMonths d m) < day_key (addMonths d n).
Proof.
  intros Hd Hmn.
  pose proof (addMonths_valid d m Hd) as Vm. apply valid_spec in Vm.
  pose proof (addMonths_valid d n Hd) as Vn. apply valid_spec in Vn.
  pose proof (getDaysInMonth_bounds (getFullYear (addMonths d m)) (getMonth (addMonths d m))).
  pose proof (getDaysInMonth_bounds (getFullYear (addMonths d n)) (getMonth (addMonths d n))).
  unfold day_key. rewrite !addMonths_month_index. lia.
Qed.

(** Later by more months is later. *)
Lemma addMonths_lt d m n :
  valid d = true -> m < n -> date_lt (addMonths d m) (addMonths d n).
Proof.
  intros Hd Hmn. apply date_lt_key; auto using addMonths_valid, day_key_addMonths.
Qed.

Lemma addMonths_0 d : addMonths d 0 = d.
Proof. reflexivity. Qed.

(** *** Printing a date and reading it back *)

Lemma read_N_leading v w rest :
  0 <= v -> (rest = "" \/ exists r, rest = String "-" r)%string ->
  read_N (addLeadingZeros v w ++ rest) 0 = (Z.to_N v, rest).
Proof.
  intros Hv Hrest. unfold addLeadingZeros.
  destruct (Z.ltb_spec v 0) as [|_]; [lia|]. cbn [append].
  rewrite read_N_padded.
  replace (Z.abs_N v) with (Z.to_N v) by (destruct v; [reflexivity .. | lia]).
  destruct Hrest as [-> | [r ->]]; reflexivity.
Qed.

Lemma read_fields_text y m dd :
  0 <= y -> 0 <= m -> 0 <= dd ->
  read_fields (addLeadingZeros y 4 ++ String "-"
                 (addLeadingZeros m 2 ++ String "-" (addLeadingZeros dd 2)))
  = Some (mkDate y (m - 1) dd).
Proof.
  intros Hy Hm Hd. unfold read_fields.
  rewrite read_N_leading by eauto.
  rewrite read_N_leading by eauto.
  rewrite <- (append_nil_r (addLeadingZeros dd 2)).
  rewrite read_N_leading by eauto.
  rewrite !Z2N.id by assumption. reflexivity.
Qed.

Lemma read_iso_text d :
  valid d = true -> 0 <= getFullYear d -> read_iso (iso_text d) = Some d.
Proof.
  intros Hv Hy. pose proof Hv as Hv'. apply valid_spec in Hv'.
  unfold read_iso.
  assert (E : read_fields (iso_text d) = Some d).
  { unfold iso_text, token_MM, token_dd.
    change ("-" ++ ?x)%string with (String "-" x).
    cbn [append].
    rewrite read_fields_text by lia.
    destruct d as [y m dd]. cbn [getFullYear getMonth getDate]. f_equal. f_equal. lia. }
  rewrite E, Hv, String.eqb_refl. reflexivity.
Qed.

Lemma read_iso_sound s d :
  read_iso s = Some d -> valid d = true /\ iso_text d = s.
Proof.
  unfold read_iso. destruct (read_fields s) as [d'|]; [|discriminate].
  destruct (valid d') eqn:V; [|discriminate]. cbn [andb].
  destruct (String.eqb_spec (iso_text d') s); [|discriminate].
  intros [= <-]. auto.
Qed.

Lemma render_iso d :
  1 <= getFullYear d -> render d yyyy_MM_dd = iso_text d.
Proof.
  intros Hy. unfold render, iso_text, token_yyyy.
  destruct (Z.ltb_spec 0 (getFullYear d)); [reflexivity | lia].
Qed.

(** The database reads a printed date of our era back as it was. *)
Lemma date_in_render d :
  valid d = true -> 1 <= getFullYear d ->
  date_in (render d yyyy_MM_dd) = Some d.
Proof.
  intros Hv Hy. unfold date_in. rewrite render_iso, read_iso_text by (auto; lia).
  destruct (Z.leb_spec 1 (getFullYear d)); [reflexivity | lia].
Qed.

Lemma date_in_sound s d :
  date_in s = Some d ->
  valid d = true /\ 1 <= getFullYear d /\ read_iso s = Some d.
Proof.
  unfold date_in. destruct (read_iso s) as [d'|] eqn:E; [|discriminate].
  destruct (Z.leb_spec 1 (getFullYear d')); [|discriminate].
  intros [= <-]. apply read_iso_sound in E as H1. intuition.
Qed.

(** What [parseISO] reads, the database reads the same way, year 0 apart. *)
Lemma parseISO_read_iso s d : parseISO s = Some d -> read_iso s = Some d.
Proof. unfold parseISO. destruct (_ =? _)%nat; [auto | discriminate]. Qed.

Lemma parseISO_date_in s d e :
  parseISO s = Some d -> date_in s = Some e -> d = e.
Proof.
  intros Hp Hd. apply parseISO_read_iso in Hp.
  apply date_in_sound in Hd as (_ & _ & Hd). congruence.
Qed.

Lemma getFullYear_addMonths d n :
  valid d = true -> 0 <= n -> getFullYear d <= getFullYear (addMonths d n).
Proof.
  intros Hd Hn. pose proof (addMonths_month_index d n) as E.
  pose proof (addMonths_valid d n Hd) as V.
  apply valid_spec in Hd. apply valid_spec in V. unfold month_index in E. lia.
Qed.

End Calendar.

(* ================================================================== *)
(** ** Membership numbers *)

Section Numbers.
Import Text DateFns Db Handler Spec.

Lemma membershipNumber_spec n :
  AddMembership.membershipNumber (Some n) = nextMembershipNumber n.
Proof.
  unfold AddMembership.membershipNumber, nextMembershipNumber, zero_pad.
  now rewrite padStart_zeros.
Qed.

(** C3.  The membership number the page generates from a count [n] of
    existing memberships is "MEM" followed by [n + 1] left-padded with
    zeros to 6 digits, for every [n]; run against the table, the generator
    returns it for the number of rows (for 0 when the count request gives
    nothing); counts 0 and 41 give "MEM000001" and "MEM000042", from the
    generator of the database as well. *)
Theorem generateMembershipNumber_is_zero_padded
  (n : N) (env : Env) (w : World AddMembership.State) :
  AddMembership.membershipNumber (Some n) = nextMembershipNumber n
  /\ fst (AddMembership.generateMembershipNumber env w)
     = inr (nextMembershipNumber
              (match read_error env with
               | None => N.of_nat (List.length (memberships w))
               | Some _ => 0%N
               end))
  /\ AddMembership.membershipNumber (Some 0%N) = "MEM000001"
  /\ AddMembership.membershipNumber (Some 41%N) = "MEM000042"
  /\ generate_membership_number_at 0 = inr "MEM000001"
  /\ generate_membership_number_at 41 = inr "MEM000042".
Proof.
  split; [apply membershipNumber_spec|]. split; [|repeat split; reflexivity].
  unfold AddMembership.generateMembershipNumber, bind, ret, supabase_count.
  cbn [fst]. destruct (read_error env); cbn [fst]; f_equal;
    apply membershipNumber_spec.
Qed.

Lemma LPAD_short s w :
  (String.length s <= w)%nat -> LPAD s w "0" = padStart s w "0".
Proof.
  intros H. unfold LPAD, padStart.
  destruct (Nat.leb_spec w (String.length s)) as [H'|H']; [|reflexivity].
  replace w with (String.length s) by lia. apply substring_all.
Qed.

Lemma LPAD_long s w :
  (w < String.length s)%nat -> LPAD s w "0" <> padStart s w "0".
Proof.
  intros H E. apply (f_equal String.length) in E. revert E.
  unfold LPAD, padStart.
  destruct (Nat.leb_spec w (String.length s)) as [H'|H']; [|lia].
  rewrite length_substring_0 by lia. lia.
Qed.

(** C9.  The generator of the page and the generator of the database agree
    on every count [n] with [n + 1 <= 999999] and on no count beyond: there
    the page prints all the digits, more than six, and the database, where
    the counter still fits its type, the first six. *)
Theorem generators_agree_up_to_999999 (n : N) :
  ((n + 1 <= 999999)%N ->
     generate_membership_number_at n
     = inr (AddMembership.membershipNumber (Some n)))
  /\ ((999999 < n + 1)%N ->
        generate_membership_number_at n
        <> inr (AddMembership.membershipNumber (Some n))
        /\ AddMembership.membershipNumber (Some n)
           = "MEM" ++ String_of_N (n + 1)
        /\ (9 < String.length (AddMembership.membershipNumber (Some n)))%nat
        /\ (forall t, generate_membership_number_at n = inr t ->
                      t = "MEM" ++ substring 0 6 (String_of_N (n + 1))
                      /\ String.length t = 9%nat)).
Proof.
  unfold generate_membership_number_at, AddMembership.membershipNumber.
  split; intros H.
  - destruct (N.leb_spec (n + 1) 2147483647); [|lia].
    rewrite LPAD_short; [reflexivity|].
    apply (length_String_of_N_le (n + 1) 5). simpl. lia.
  - assert (L : (6 < String.length (String_of_N (n + 1)))%nat)
      by (apply (length_String_of_N_gt (n + 1) 6); simpl; lia).
    assert (P : padStart (String_of_N (n + 1)) 6 "0" = String_of_N (n + 1)).
    { unfold padStart.
      destruct (Nat.leb_spec 6 (String.length (String_of_N (n + 1))));
        [reflexivity | lia]. }
    assert (Q : LPAD (String_of_N (n + 1)) 6 "0"
                = substring 0 6 (String_of_N (n + 1))).
    { unfold LPAD.
      destruct (Nat.leb_spec 6 (String.length (String_of_N (n + 1))));
        [reflexivity | lia]. }
    split; [|split; [|split]].
    + destruct (N.leb_spec (n + 1) 2147483647); [|discriminate].
      intros [= E]. revert E. now apply LPAD_long.
    + now rewrite P.
    + rewrite P. cbn [append String.length]. lia.
    + intros t. destruct (N.leb_spec (n + 1) 2147483647); [|discriminate].
      intros [= <-]. rewrite Q. split; [reflexivity|].
      cbn [append String.length]. rewrite length_substring_0 by lia. reflexivity.
Qed.

Lemma generators_agree_up_to_999999_witness :
  generate_membership_number_at 41
  = inr (AddMembership.membershipNumber (Some 41%N))
  /\ generate_membership_number_at 999999
     <> inr (AddMembership.membershipNumber (Some 999999%N)).
Proof.
  split.
  - apply (proj1 (generators_agree_up_to_999999 41)). lia.
  - apply (proj1 (proj2 (generators_agree_up_to_999999 999999) ltac:(lia))).
Defined.

End Numbers.

(* ================================================================== *)
(** ** The role of a new identity *)

Section Roles.
Import Text DateFns Db Spec.

Lemma insert_user_role_inv dflt uid r a a' :
  insert_user_role dflt uid r a = inr a' ->
  user_roles a' = (user_roles a ++ [mkUserRole (gen_random_uuid dflt) uid r])%list
  /\ profiles a' = profiles a.
Proof.
  unfold insert_user_role.
  destruct (existsb _ _); [discriminate|].
  destruct (existsb _ _); [discriminate|].
  intros [= <-]. auto.
Qed.

Lemma handle_new_user_roles dflt NEW a a' :
  handle_new_user dflt NEW a = inr a' ->
  user_roles a'
  = (user_roles a
     ++ [mkUserRole (gen_random_uuid dflt) (NEW_id NEW)
           (first_user_gets_admin (N.of_nat (List.length (user_roles a))))])%list.
Proof.
  unfold handle_new_user.
  destruct (COALESCE _ _); [|discriminate].
  destruct (NEW_email NEW); [|discriminate].
  destruct (existsb _ _); [discriminate|].
  intros H. apply insert_user_role_inv in H as [H _]. exact H.
Qed.

Lemma sign_ups_roles l : forall a,
  admin_then_users (map role (user_roles a)) ->
  admin_then_users (map role (user_roles (sign_ups l a))).
Proof.
  induction l as [|[dflt NEW] l IH]; intros a Ha; cbn [sign_ups]; [exact Ha|].
  apply IH. destruct (handle_new_user dflt NEW a) as [e|a'] eqn:E; [exact Ha|].
  rewrite (handle_new_user_roles _ _ _ _ E), map_app. cbn [map role].
  rewrite <- (length_map role). destruct Ha as [-> | [n ->]].
  - right. exists 0%nat. reflexivity.
  - right. exists (S n). cbn [List.length app repeat].
    replace (first_user_gets_admin _) with user
      by (unfold first_user_gets_admin;
          destruct (N.eqb_spec (N.of_nat (S (List.length (repeat user n)))) 0);
          [lia | reflexivity]).
    now rewrite <- repeat_cons.
Qed.

(** C4.  The role the sign-up trigger gives depends on the number of roles
    already assigned only: [admin] at 0 and [user] at every [k >= 1]; what
    the trigger adds to [user_roles] is one row, for the new identity, with
    the role of that count; and over any sequence of sign-ups into an empty
    system the roles assigned are one [admin], the first, and then [user]s. *)
Theorem first_identity_admin_later_user
  (dflt : Defaults) (NEW : AuthUser) (a a' : Accounts) (k : N)
  (l : list (Defaults * AuthUser))
  (Hrun : handle_new_user dflt NEW a = inr a')
  (Hk : (1 <= k)%N) :
  first_user_gets_admin 0 = admin
  /\ first_user_gets_admin k = user
  /\ user_roles a'
     = (user_roles a
        ++ [mkUserRole (gen_random_uuid dflt) (NEW_id NEW)
              (first_user_gets_admin (N.of_nat (List.length (user_roles a))))])%list
  /\ admin_then_users (map role (user_roles (sign_ups l (mkAccounts [] [])))).
Proof.
  split; [reflexivity|]. split; [|split].
  - unfold first_user_gets_admin. destruct (N.eqb_spec k 0); [lia | reflexivity].
  - now apply handle_new_user_roles.
  - apply sign_ups_roles. now left.
Qed.

Lemma first_identity_admin_later_user_witness :
  let dflt := mkDefaults "r2" (mkDate 2025 0 15) "2025-01-15T10:00:00Z" in
  let NEW := mkAuthUser "u2" (Some "b@example.org") None in
  let a := mkAccounts [mkProfile "u1" "a@example.org" "a@example.org" "t0"]
                      [mkUserRole "r1" "u1" admin] in
  exists a', handle_new_user dflt NEW a = inr a'
             /\ first_user_gets_admin 3 = user
             /\ map role (user_roles a') = [admin; user].
Proof.
  intros dflt NEW a.
  destruct (handle_new_user dflt NEW a) as [e|a'] eqn:E;
    [vm_compute in E; discriminate|].
  exists a'. split; [reflexivity|].
  destruct (first_identity_admin_later_user dflt NEW a a' 3 [] E ltac:(lia))
    as (_ & H3 & Hroles & _).
  split; [exact H3|]. rewrite Hroles. reflexivity.
Defined.

End Roles.

(* ================================================================== *)
(** ** End dates *)

Section EndDates.
Import Text DateFns Db Handler Spec.
Import UpdateMembership.
Local Open Scope Z_scope.

Lemma calculateNewEndDate_6_months s d :
  parseISO s = Some d ->
  calculateNewEndDate s "6_months" = inr (render (addMonths d 6) yyyy_MM_dd).
Proof. intros H. unfold calculateNewEndDate. rewrite H. reflexivity. Qed.

Lemma calculateNewEndDate_1_year s d :
  parseISO s = Some d ->
  calculateNewEndDate s "1_year" = inr (render (addMonths d 12) yyyy_MM_dd).
Proof. intros H. unfold calculateNewEndDate. rewrite H. reflexivity. Qed.

Lemma calculateNewEndDate_2_years s d :
  parseISO s = Some d ->
  calculateNewEndDate s "2_years" = inr (render (addMonths d 24) yyyy_MM_dd).
Proof. intros H. unfold calculateNewEndDate. rewrite H. reflexivity. Qed.

Lemma is_extension_cases a :
  is_extension a = true -> a = "6_months" \/ a = "1_year" \/ a = "2_years".
Proof.
  unfold is_extension. rewrite !orb_true_iff, !String.eqb_eq. tauto.
Qed.

(** The months an extension adds. *)
Lemma calculateNewEndDate_extension s d a :
  parseISO s = Some d -> is_extension a = true ->
  exists n, 6 <= n /\
    calculateNewEndDate s a = inr (render (addMonths d n) yyyy_MM_dd).
Proof.
  intros Hs Ha. apply is_extension_cases in Ha as [-> | [-> | ->]].
  - exists 6. split; [lia|]. now apply calculateNewEndDate_6_months.
  - exists 12. split; [lia|]. now apply calculateNewEndDate_1_year.
  - exists 24. split; [lia|]. now apply calculateNewEndDate_2_years.
Qed.

(** The end date an extension computes, by the months its action adds. *)
Lemma calculateNewEndDate_by_months s d a :
  parseISO s = Some d -> is_extension a = true ->
  calculateNewEndDate s a
  = inr (render (addMonths d (Facts.months a)) yyyy_MM_dd)
  /\ 6 <= Facts.months a <= 24.
Proof.
  intros Hs Ha. apply is_extension_cases in Ha as [-> | [-> | ->]].
  - split; [now apply calculateNewEndDate_6_months | cbn; lia].
  - split; [now apply calculateNewEndDate_1_year | cbn; lia].
  - split; [now apply calculateNewEndDate_2_years | cbn; lia].
Qed.

Lemma stored_render_addMonths d n :
  valid d = true -> 1 <= getFullYear d -> 0 <= n ->
  date_in (render (addMonths d n) yyyy_MM_dd) = Some (addMonths d n).
Proof.
  intros Hv Hy Hn. apply date_in_render; [now apply addMonths_valid|].
  pose proof (getFullYear_addMonths d n Hv Hn). lia.
Qed.

(** C5.  For a date of the DATE column that the page can read ([s], read as
    [d]) and for the current date [today], the three end dates are, once
    stored, the dates 6, 12 and 24 months on, and each is strictly before the
    next; both [calculateNewEndDate] and [calculateEndDate] are functions of
    their two arguments. *)
Theorem end_date_strictly_increases_with_duration
  (s : string) (d today : Date)
  (Hs : parseISO s = Some d) (Hd : 1 <= getFullYear d)
  (Ht : valid today = true) (Hy : 1 <= getFullYear today) :
  (stored (calculateNewEndDate s "6_months") = Some (addMonths d 6)
   /\ stored (calculateNewEndDate s "1_year") = Some (addYears d 1)
   /\ stored (calculateNewEndDate s "2_years") = Some (addYears d 2)
   /\ date_lt (addMonths d 6) (addYears d 1)
   /\ date_lt (addYears d 1) (addYears d 2))
  /\ (stored_opt (AddMembership.calculateEndDate today "6_months")
        = Some (addMonths today 6)
      /\ stored_opt (AddMembership.calculateEndDate today "1_year")
         = Some (addYears today 1)
      /\ stored_opt (AddMembership.calculateEndDate today "2_years")
         = Some (addYears today 2)
      /\ date_lt (addMonths today 6) (addYears today 1)
      /\ date_lt (addYears today 1) (addYears today 2)).
Proof.
  pose proof (parseISO_read_iso _ _ Hs) as Hr.
  apply read_iso_sound in Hr as [Hv _].
  unfold addYears. change (1 * 12) with 12. change (2 * 12) with 24.
  split.
  - rewrite (calculateNewEndDate_6_months s d Hs),
            (calculateNewEndDate_1_year s d Hs),
            (calculateNewEndDate_2_years s d Hs).
    cbn [stored]. rewrite !stored_render_addMonths by (auto; lia).
    repeat split; apply addMonths_lt; auto; lia.
  - unfold AddMembership.calculateEndDate, addYears.
    change (1 * 12) with 12. change (2 * 12) with 24.
    cbn [String.eqb Ascii.eqb Bool.eqb stored_opt].
    rewrite !stored_render_addMonths by (auto; lia).
    repeat split; apply addMonths_lt; auto; lia.
Qed.

Lemma end_date_strictly_increases_with_duration_witness :
  stored (calculateNewEndDate "2024-01-31" "6_months") = Some (mkDate 2024 6 31)
  /\ stored (calculateNewEndDate "2024-01-31" "1_year") = Some (mkDate 2025 0 31)
  /\ stored (calculateNewEndDate "2024-01-31" "2_years") = Some (mkDate 2026 0 31)
  /\ date_lt (mkDate 2024 6 31) (mkDate 2025 0 31)
  /\ date_lt (mkDate 2025 0 31) (mkDate 2026 0 31).
Proof.
  exact (proj1 (end_date_strictly_increases_with_duration
                  "2024-01-31" (mkDate 2024 0 31) (mkDate 2025 5 15)
                  eq_refl ltac:(simpl; lia) eq_refl ltac:(simpl; lia))).
Defined.

(** C6.  Six months from 2024-01-31 is 2024-07-31 and six months from
    2024-08-31 is 2025-02-28.  In general the date [n] months from a day of
    the calendar is a day of the calendar, in the month [n] months on, and
    its day is the day of the start cut to the length of that month. *)
Theorem end_date_clamps_to_month_end (d : Date) (n : Z)
  (Hd : valid d = true) (Hn : n <> 0) :
  calculateNewEndDate "2024-01-31" "6_months" = inr "2024-07-31"%string
  /\ calculateNewEndDate "2024-08-31" "6_months" = inr "2025-02-28"%string
  /\ valid (addMonths d n) = true
  /\ month_index (addMonths d n) = month_index d + n
  /\ getDate (addMonths d n)
     = Z.min (getDate d)
             (getDaysInMonth (getFullYear (addMonths d n))
                             (getMonth (addMonths d n))).
Proof.
  split; [reflexivity|]. split; [reflexivity|].
  split; [now apply addMonths_valid|].
  split; [apply addMonths_month_index | now apply addMonths_clamps].
Qed.

Lemma end_date_clamps_to_month_end_witness :
  valid (addMonths (mkDate 2024 7 31) 6) = true
  /\ addMonths (mkDate 2024 7 31) 6 = mkDate 2025 1 28.
Proof.
  split; [|reflexivity].
  exact (proj1 (proj2 (proj2 (end_date_clamps_to_month_end
                                (mkDate 2024 7 31) 6 eq_refl ltac:(lia))))).
Defined.

Lemma calculateNewEndDate_default s tag :
  is_extension tag = false -> calculateNewEndDate s tag = inr s.
Proof.
  unfold is_extension. rewrite !orb_false_iff. intros [[H6 H1] H2].
  unfold calculateNewEndDate. now rewrite H6, H1, H2.
Qed.

(** C7, as the specification states it, fails: asked for an extension it does
    not know (here the fourth value of [ExtensionType]),
    [calculateNewEndDate] returns the date it was given and raises nothing. *)
Lemma unknown_duration_is_not_rejected :
  ExtensionType "cancel" = true
  /\ is_extension "cancel" = false
  /\ calculateNewEndDate "2024-01-31" "cancel" = inr "2024-01-31"%string
  /\ ~ (exists e, calculateNewEndDate "2024-01-31" "cancel" = inl e).
Proof.
  repeat split. intros [e H]. discriminate H.
Qed.

(** C7, amended.  For a duration other than the three, no error is raised:
    [calculateNewEndDate] returns the end date unchanged, whatever it is,
    and [calculateEndDate] falls out of its [switch] without a date. *)
Theorem unknown_duration_leaves_date_unchanged
  (s tag : string) (today : Date) (Htag : is_extension tag = false) :
  calculateNewEndDate s tag = inr s
  /\ AddMembership.calculateEndDate today tag = None.
Proof.
  split; [now apply calculateNewEndDate_default|].
  unfold is_extension in Htag. rewrite !orb_false_iff in Htag.
  destruct Htag as [[H6 H1] H2].
  unfold AddMembership.calculateEndDate. now rewrite H6, H1, H2.
Qed.

Lemma unknown_duration_leaves_date_unchanged_witness :
  calculateNewEndDate "2024-01-31" "3_years" = inr "2024-01-31"%string
  /\ AddMembership.calculateEndDate (mkDate 2024 0 31) "3_years" = None.
Proof.
  exact (unknown_duration_leaves_date_unchanged
           "2024-01-31" "3_years" (mkDate 2024 0 31) eq_refl).
Defined.

End EndDates.

(* ================================================================== *)
(** ** The update handler, step by step *)

Section UpdateHandler.
Import Text DateFns Db Handler Spec.
Import UpdateMembership.

Ltac unfold_handler :=
  unfold run, handleUpdate, bind, try_catch, lift, throw_if, throw, ret,
         get_page, set_page, setLoading, setMembership, toast,
         supabase_update, supabase_select_single;
  cbn [fst snd page memberships toasts membership action loading
       searchLoading membershipNumber].

(** The table after [handleUpdate]. *)
Lemma handleUpdate_table env w :
  memberships (run (handleUpdate env) w) =
  match membership (page w) with
  | None => memberships w
  | Some m =>
      match request_error env with
      | Some _ => memberships w
      | None =>
          if action (page w) =? "cancel" then
            update_eq_id (mkPatch None (Some "cancelled") (Some (toISOString env)))
                         (Row.id m) (memberships w)
          else
            match calculateNewEndDate (Row.end_date m) (action (page w)) with
            | inl _ => memberships w
            | inr newEndDate =>
                update_eq_id (mkPatch (Some newEndDate) (Some "active")
                                      (Some (toISOString env)))
                             (Row.id m) (memberships w)
            end
      end
  end.
Proof.
  unfold_handler.
  destruct (membership (page w)) as [m|]; [|reflexivity].
  cbn [page memberships toasts membership action loading
       searchLoading membershipNumber].
  destruct (action (page w) =? "cancel").
  - destruct (request_error env); cbn.
    + reflexivity.
    + destruct (read_error env); [|destruct (select_eq_id_single _ _)]; reflexivity.
  - destruct (calculateNewEndDate _ _) as [e|t]; cbn.
    + destruct (request_error env); reflexivity.
    + destruct (request_error env); cbn; [reflexivity|].
      destruct (format (parseISO t) MMM_dd_yyyy); cbn; [reflexivity|].
      destruct (read_error env); [|destruct (select_eq_id_single _ _)]; reflexivity.
Qed.

(** No exception leaves the handler: it always returns. *)
Lemma handleUpdate_returns env w : fst (handleUpdate env w) = inr tt.
Proof.
  unfold_handler.
  destruct (membership (page w)) as [m|]; [|reflexivity].
  cbn [page memberships toasts membership action loading
       searchLoading membershipNumber].
  destruct (action (page w) =? "cancel").
  - destruct (request_error env); cbn.
    + reflexivity.
    + destruct (read_error env); [|destruct (select_eq_id_single _ _)]; reflexivity.
  - destruct (calculateNewEndDate _ _) as [e|t]; cbn.
    + destruct (request_error env); reflexivity.
    + destruct (request_error env); cbn; [reflexivity|].
      destruct (format (parseISO t) MMM_dd_yyyy); cbn; [reflexivity|].
      destruct (read_error env); [|destruct (select_eq_id_single _ _)]; reflexivity.
Qed.

(** The membership shown after [handleUpdate]: the one shown before, or the
    row the refresh found under its [id]. *)
Lemma handleUpdate_membership env w m' :
  membership (page (run (handleUpdate env) w)) = Some m' ->
  membership (page w) = Some m'
  \/ exists m, membership (page w) = Some m
               /\ select_eq_id_single (Row.id m)
                    (memberships (run (handleUpdate env) w)) = Some m'.
Proof.
  unfold_handler.
  destruct (membership (page w)) as [m|] eqn:Hm;
    [|cbn [snd]; rewrite Hm; auto].
  cbn [page memberships toasts membership action loading
       searchLoading membershipNumber].
  assert (L : forall t : Table,
             Some m = Some m' ->
             Some m = Some m' \/
             exists m0, Some m = Some m0
                        /\ select_eq_id_single (Row.id m0) t = Some m')
    by (intros; now left).
  destruct (action (page w) =? "cancel").
  - destruct (request_error env); cbn; rewrite ?Hm; [apply L|].
    destruct (read_error env); [cbn; rewrite ?Hm; apply L|].
    destruct (select_eq_id_single _ _) eqn:Hsel; cbn; rewrite ?Hm; [|apply L].
    intros [= <-]. right. exists m. split; [reflexivity | exact Hsel].
  - destruct (calculateNewEndDate _ _) as [e|t]; cbn.
    + destruct (request_error env); cbn; rewrite ?Hm; apply L.
    + destruct (request_error env); cbn; rewrite ?Hm; [apply L|].
      destruct (format (parseISO t) MMM_dd_yyyy); cbn; rewrite ?Hm; [apply L|].
      destruct (read_error env); [cbn; rewrite ?Hm; apply L|].
      destruct (select_eq_id_single _ _) eqn:Hsel; cbn; rewrite ?Hm; [|apply L].
      intros [= <-]. right. exists m. split; [reflexivity | exact Hsel].
Qed.

Lemma handleUpdate_no_membership env w :
  membership (page w) = None -> run (handleUpdate env) w = w.
Proof.
  intros H. unfold_handler. rewrite H. destruct w; reflexivity.
Qed.

Lemma In_update_eq_id p k t r' :
  In r' (update_eq_id p k t) <->
  exists r, In r t /\ r' = (if Row.id r =? k then apply_patch p r else r).
Proof.
  unfold update_eq_id. rewrite in_map_iff. split; intros (r & A & B).
  - exists r. split; [exact B | now symmetry].
  - exists r. split; [now symmetry | exact A].
Qed.

Lemma select_eq_id_single_In k t r :
  select_eq_id_single k t = Some r -> In r t /\ Row.id r = k.
Proof.
  unfold select_eq_id_single.
  destruct (filter _ t) as [|x [|y l]] eqn:F; try discriminate.
  intros [= ->].
  assert (In r (filter (fun r => Row.id r =? k) t)) as H by (rewrite F; now left).
  apply filter_In in H as [H1 H2]. apply String.eqb_eq in H2. auto.
Qed.

(** What an extension does to the table, when the stored end date is one the
    page can read and the backend carries the request out. *)
Lemma handleUpdate_extension env w m d :
  membership (page w) = Some m ->
  is_extension (action (page w)) = true ->
  parseISO (Row.end_date m) = Some d ->
  request_error env = None ->
  exists n, (6 <= n)%Z /\
    memberships (run (handleUpdate env) w)
    = update_eq_id (mkPatch (Some (render (addMonths d n) yyyy_MM_dd))
                            (Some "active") (Some (toISOString env)))
                   (Row.id m) (memberships w).
Proof.
  intros Hm Ha Hd Hreq.
  destruct (calculateNewEndDate_extension _ _ _ Hd Ha) as (n & Hn & Hc).
  exists n. split; [exact Hn|].
  rewrite handleUpdate_table, Hm, Hreq, Hc.
  apply is_extension_cases in Ha as [-> | [-> | ->]]; reflexivity.
Qed.

Lemma updated_rows_active p k t e u r' :
  p = mkPatch e (Some "active") u ->
  In r' (update_eq_id p k t) -> Row.id r' = k -> Row.status r' = "active".
Proof.
  intros -> Hin Hid. apply In_update_eq_id in Hin as (r & _ & ->).
  destruct (String.eqb_spec (Row.id r) k) as [_|Hne]; [reflexivity|].
  contradiction.
Qed.

End UpdateHandler.

(* ================================================================== *)
(** ** Status transitions of an extension *)

Section Transitions.
Import Text DateFns Db Handler Spec Sample.
Import UpdateMembership.

(** C1, as the specification states it, fails: extending a cancelled
    membership raises nothing, reports success, and leaves the record
    active with a later end date. *)
Lemma cancelled_membership_extend_succeeds :
  Row.status cancelled_row = "cancelled"
  /\ fst (handleUpdate env0 cancelled_world) = inr tt
  /\ toasts (run (handleUpdate env0) cancelled_world)
     = [toast_success "Membership extended until Jan 31, 2025"]
  /\ map Row.status (memberships (run (handleUpdate env0) cancelled_world))
     = ["active"]
  /\ map Row.end_date (memberships (run (handleUpdate env0) cancelled_world))
     = ["2025-01-31"]
  /\ memberships (run (handleUpdate env0) cancelled_world)
     <> memberships cancelled_world.
Proof.
  repeat split; try reflexivity. vm_compute. discriminate.
Qed.

(** C1, amended.  For a cancelled membership shown on the update page, each
    of the three extensions is carried out: the handler returns without an
    exception, and the table after it is the table before with the row of
    the membership rewritten with status 'active' and with the end date
    [calculateNewEndDate] computes from the stored end date and the selected
    action, which is the stored date moved on by the 6, 12 or 24 months of
    that action, a strictly later date; no row of the membership keeps
    another status or end date, and the table is not what it was. *)
Theorem cancelled_membership_is_reactivated
  (env : Env) (w : World State) (m : Row.t) (d : Date)
  (Hm : membership (page w) = Some m)
  (Hin : In m (memberships w))
  (Hst : Row.status m = "cancelled")
  (Ha : is_extension (action (page w)) = true)
  (Hd : parseISO (Row.end_date m) = Some d)
  (Hreq : request_error env = None) :
  fst (handleUpdate env w) = inr tt
  /\ exists newEndDate,
       calculateNewEndDate (Row.end_date m) (action (page w)) = inr newEndDate
       /\ newEndDate
          = render (addMonths d (Facts.months (action (page w)))) yyyy_MM_dd
       /\ date_lt d (addMonths d (Facts.months (action (page w))))
       /\ memberships (run (handleUpdate env) w)
          = update_eq_id (mkPatch (Some newEndDate) (Some "active")
                                  (Some (toISOString env)))
                         (Row.id m) (memberships w)
       /\ In (apply_patch (mkPatch (Some newEndDate) (Some "active")
                                   (Some (toISOString env))) m)
             (memberships (run (handleUpdate env) w))
       /\ (forall r, In r (memberships (run (handleUpdate env) w)) ->
                     Row.id r = Row.id m ->
                     Row.status r = "active" /\ Row.end_date r = newEndDate)
       /\ memberships (run (handleUpdate env) w) <> memberships w.
Proof.
  split; [apply handleUpdate_returns|].
  destruct (calculateNewEndDate_by_months _ _ _ Hd Ha) as [Hc Hn].
  set (a := action (page w)) in *.
  set (t := render (addMonths d (Facts.months a)) yyyy_MM_dd) in *.
  assert (E : memberships (run (handleUpdate env) w)
              = update_eq_id (mkPatch (Some t) (Some "active")
                                      (Some (toISOString env)))
                             (Row.id m) (memberships w)).
  { rewrite handleUpdate_table, Hm, Hreq. fold a. rewrite Hc.
    apply is_extension_cases in Ha as [-> | [-> | ->]]; reflexivity. }
  assert (Hrows : forall r, In r (memberships (run (handleUpdate env) w)) ->
                    Row.id r = Row.id m ->
                    Row.status r = "active" /\ Row.end_date r = t).
  { intros r Hr Hid. rewrite E in Hr.
    apply In_update_eq_id in Hr as (r0 & _ & ->).
    destruct (String.eqb_spec (Row.id r0) (Row.id m)) as [_|Hne];
      [split; reflexivity | contradiction]. }
  exists t. split; [exact Hc|]. split; [reflexivity|].
  split; [|split; [exact E|split; [|split; [exact Hrows|]]]].
  - pose proof (parseISO_read_iso _ _ Hd) as Hr.
    apply read_iso_sound in Hr as [Hv _].
    rewrite <- (addMonths_0 d) at 1. apply addMonths_lt; [exact Hv | lia].
  - rewrite E. apply In_update_eq_id. exists m. split; [exact Hin|].
    now rewrite String.eqb_refl.
  - intros Heq. rewrite Heq in Hrows.
    destruct (Hrows m Hin eq_refl) as [Hact _].
    rewrite Hst in Hact. discriminate.
Qed.

Lemma cancelled_membership_is_reactivated_witness :
  fst (handleUpdate env0 cancelled_world) = inr tt
  /\ exists newEndDate,
       calculateNewEndDate "2024-07-31" "6_months" = inr newEndDate
       /\ newEndDate = render (addMonths (mkDate 2024 6 31) 6) yyyy_MM_dd
       /\ date_lt (mkDate 2024 6 31) (addMonths (mkDate 2024 6 31) 6)
       /\ memberships (run (handleUpdate env0) cancelled_world)
          = update_eq_id (mkPatch (Some newEndDate) (Some "active")
                                  (Some (toISOString env0)))
                         (Row.id cancelled_row) (memberships cancelled_world)
       /\ In (apply_patch (mkPatch (Some newEndDate) (Some "active")
                                   (Some (toISOString env0))) cancelled_row)
             (memberships (run (handleUpdate env0) cancelled_world))
       /\ (forall r, In r (memberships (run (handleUpdate env0) cancelled_world)) ->
                     Row.id r = Row.id cancelled_row ->
                     Row.status r = "active" /\ Row.end_date r = newEndDate)
       /\ memberships (run (handleUpdate env0) cancelled_world)
          <> memberships cancelled_world.
Proof.
  exact (cancelled_membership_is_reactivated
           env0 cancelled_world cancelled_row (mkDate 2024 6 31)
           eq_refl (or_introl eq_refl) eq_refl eq_refl eq_refl eq_refl).
Defined.

(** C2, as the specification states it, fails: on 15 June 2025 a membership
    that expired on 1 January 2020 is renewed for a year up to 1 January
    2021, a day long past, and not up to 15 June 2026, a year from the
    current date. *)
Lemma expired_renewal_ignores_today :
  Row.status expired_row = "expired"
  /\ render (new_Date env0) yyyy_MM_dd = "2025-06-15"
  /\ map Row.end_date (memberships (run (handleUpdate env0) expired_world))
     = ["2021-01-01"]
  /\ calculateNewEndDate (render (new_Date env0) yyyy_MM_dd) "1_year"
     = inr "2026-06-15"
  /\ map Row.end_date (memberships (run (handleUpdate env0) expired_world))
     <> ["2026-06-15"].
Proof.
  repeat split; try reflexivity. vm_compute. discriminate.
Qed.

(** C2, amended.  For an expired membership shown on the update page, each of
    the three extensions is carried out and yields status 'active'; the new
    end date is computed from the stored end date of the membership, and the
    current date has no part in it: under any other clock the table comes
    out the same. *)
Theorem expired_renewal_counts_from_stored_end_date
  (env : Env) (w : World State) (m : Row.t) (d today : Date)
  (Hm : membership (page w) = Some m)
  (Hin : In m (memberships w))
  (Hst : Row.status m = "expired")
  (Ha : is_extension (action (page w)) = true)
  (Hd : parseISO (Row.end_date m) = Some d)
  (Hreq : request_error env = None) :
  fst (handleUpdate env w) = inr tt
  /\ (exists newEndDate,
        calculateNewEndDate (Row.end_date m) (action (page w)) = inr newEndDate
        /\ In (apply_patch (mkPatch (Some newEndDate) (Some "active")
                                    (Some (toISOString env))) m)
              (memberships (run (handleUpdate env) w)))
  /\ (forall r, In r (memberships (run (handleUpdate env) w)) ->
                Row.id r = Row.id m ->
                Row.status r = "active"
                /\ inr (Row.end_date r)
                   = calculateNewEndDate (Row.end_date m) (action (page w)))
  /\ memberships (run (handleUpdate (at_date env today)) w)
     = memberships (run (handleUpdate env) w).
Proof.
  split; [apply handleUpdate_returns|].
  destruct (calculateNewEndDate_extension _ _ _ Hd Ha) as (n & Hn & Hc).
  assert (E : memberships (run (handleUpdate env) w)
              = update_eq_id
                  (mkPatch (Some (render (addMonths d n) yyyy_MM_dd))
                           (Some "active") (Some (toISOString env)))
                  (Row.id m) (memberships w)).
  { rewrite handleUpdate_table, Hm, Hreq, Hc.
    apply is_extension_cases in Ha as [-> | [-> | ->]]; reflexivity. }
  split; [|split].
  - exists (render (addMonths d n) yyyy_MM_dd). split; [exact Hc|].
    rewrite E. apply In_update_eq_id. exists m. split; [exact Hin|].
    now rewrite String.eqb_refl.
  - intros r Hr Hid. rewrite E in Hr.
    apply In_update_eq_id in Hr as (r0 & _ & ->).
    destruct (String.eqb_spec (Row.id r0) (Row.id m)) as [_|Hne];
      [|contradiction].
    split; [reflexivity|]. rewrite Hc. reflexivity.
  - rewrite !handleUpdate_table. reflexivity.
Qed.

Lemma expired_renewal_counts_from_stored_end_date_witness :
  (exists newEndDate,
      calculateNewEndDate "2020-01-01" "1_year" = inr newEndDate
      /\ In (apply_patch (mkPatch (Some newEndDate) (Some "active")
                                  (Some (toISOString env0))) expired_row)
            (memberships (run (handleUpdate env0) expired_world)))
  /\ memberships
       (run (handleUpdate (at_date env0 (mkDate 2031 0 1))) expired_world)
     = memberships (run (handleUpdate env0) expired_world).
Proof.
  destruct (expired_renewal_counts_from_stored_end_date
              env0 expired_world expired_row (mkDate 2020 0 1) (mkDate 2031 0 1)
              eq_refl (or_introl eq_refl) eq_refl eq_refl eq_refl eq_refl)
    as (_ & H1 & _ & H2).
  exact (conj H1 H2).
Defined.

(** C10.  An extension writes status 'active' whatever the status was: when
    the request is carried out, the table after it is the table before with
    the rows of the membership rewritten by an update whose status is
    'active', so every row of the membership, whatever its status was, is
    now a row with status 'active', and no row of the membership has
    another status. *)
Theorem extension_always_writes_active
  (env : Env) (w : World State) (m : Row.t) (d : Date)
  (Hm : membership (page w) = Some m)
  (Ha : is_extension (action (page w)) = true)
  (Hd : parseISO (Row.end_date m) = Some d)
  (Hreq : request_error env = None) :
  exists newEndDate,
    calculateNewEndDate (Row.end_date m) (action (page w)) = inr newEndDate
    /\ memberships (run (handleUpdate env) w)
       = update_eq_id (mkPatch (Some newEndDate) (Some "active")
                               (Some (toISOString env)))
                      (Row.id m) (memberships w)
    /\ (forall r, In r (memberships w) -> Row.id r = Row.id m ->
          exists r', In r' (memberships (run (handleUpdate env) w))
                     /\ Row.id r' = Row.id r /\ Row.status r' = "active")
    /\ (forall r', In r' (memberships (run (handleUpdate env) w)) ->
          Row.id r' = Row.id m -> Row.status r' = "active").
Proof.
  destruct (calculateNewEndDate_extension _ _ _ Hd Ha) as (n & Hn & Hc).
  exists (render (addMonths d n) yyyy_MM_dd). split; [exact Hc|].
  assert (E : memberships (run (handleUpdate env) w)
              = update_eq_id
                  (mkPatch (Some (render (addMonths d n) yyyy_MM_dd))
                           (Some "active") (Some (toISOString env)))
                  (Row.id m) (memberships w)).
  { rewrite handleUpdate_table, Hm, Hreq, Hc.
    apply is_extension_cases in Ha as [-> | [-> | ->]]; reflexivity. }
  split; [exact E|]. rewrite E. split.
  - intros r Hr Hid.
    exists (apply_patch (mkPatch (Some (render (addMonths d n) yyyy_MM_dd))
                                 (Some "active") (Some (toISOString env))) r).
    split; [|split; reflexivity].
    apply In_update_eq_id. exists r. split; [exact Hr|].
    rewrite Hid. now rewrite String.eqb_refl.
  - intros r' Hr' Hid.
    now apply updated_rows_active
      with (p := mkPatch (Some (render (addMonths d n) yyyy_MM_dd))
                         (Some "active") (Some (toISOString env)))
           (k := Row.id m) (t := memberships w)
           (e := Some (render (addMonths d n) yyyy_MM_dd))
           (u := Some (toISOString env)).
Qed.

Lemma extension_always_writes_active_witness :
  exists newEndDate,
    calculateNewEndDate "2020-01-01" "1_year" = inr newEndDate
    /\ memberships (run (handleUpdate env0) expired_world)
       = update_eq_id (mkPatch (Some newEndDate) (Some "active")
                               (Some (toISOString env0)))
                      (Row.id expired_row) (memberships expired_world).
Proof.
  destruct (extension_always_writes_active
              env0 expired_world expired_row (mkDate 2020 0 1)
              eq_refl eq_refl eq_refl eq_refl) as (e & H1 & H2 & _).
  exists e. exact (conj H1 H2).
Defined.

End Transitions.

(* ================================================================== *)
(** ** The end date is never before the start date *)

Section Invariant.
Import Text DateFns Db Handler App Spec Sample.
Local Open Scope Z_scope.

Lemma row_ok_spec r :
  row_ok r = true <->
  exists s e, date_in (Row.start_date r) = Some s
              /\ date_in (Row.end_date r) = Some e
              /\ day_key s <= day_key e.
Proof.
  unfold row_ok. split.
  - destruct (date_in (Row.start_date r)) as [s|] eqn:Hs; [|discriminate].
    destruct (date_in (Row.end_date r)) as [e|] eqn:He; [|discriminate].
    intros H. exists s, e. repeat split.
    apply date_in_sound in Hs as (Vs & _). apply date_in_sound in He as (Ve & _).
    now apply date_leb_key.
  - intros (s & e & Hs & He & Hk). rewrite Hs, He.
    apply date_in_sound in Hs as (Vs & _). apply date_in_sound in He as (Ve & _).
    now apply date_leb_key.
Qed.

(** An end date computed from a stored one is, once stored, not before it. *)
Lemma calculateNewEndDate_not_before s a t e :
  date_in s = Some e ->
  UpdateMembership.calculateNewEndDate s a = inr t ->
  exists e', date_in t = Some e' /\ day_key e <= day_key e'.
Proof.
  intros He Hc.
  destruct (is_extension a) eqn:Ha.
  - destruct (parseISO s) as [d|] eqn:Hp.
    + assert (d = e) as -> by (eapply parseISO_date_in; eauto).
      destruct (calculateNewEndDate_extension _ _ _ Hp Ha) as (n & Hn & Hc').
      rewrite Hc' in Hc. injection Hc as <-.
      apply date_in_sound in He as (Ve & Hy & _).
      exists (addMonths e n). split; [apply stored_render_addMonths; auto; lia|].
      pose proof (day_key_addMonths e 0 n Ve ltac:(lia)) as K.
      rewrite addMonths_0 in K. lia.
    + exfalso. revert Hc. unfold UpdateMembership.calculateNewEndDate.
      rewrite Hp. apply is_extension_cases in Ha as [-> | [-> | ->]];
        discriminate.
  - rewrite (calculateNewEndDate_default s a Ha) in Hc. injection Hc as <-. exists e. split; [exact He | lia].
Qed.

Lemma updated_row_origin p k t r' :
  In r' (update_eq_id p k t) ->
  exists r, In r t /\ Row.id r' = Row.id r
            /\ Row.start_date r' = Row.start_date r.
Proof.
  intros H. apply In_update_eq_id in H as (r & Hr & ->).
  exists r. destruct (Row.id r =? k)%string; auto.
Qed.

Lemma table_ok_spec t : table_ok t = true <-> forall r, In r t -> row_ok r = true.
Proof. apply forallb_forall. Qed.

Lemma table_ok_update p k t :
  table_ok t = true ->
  (forall r, In r t -> Row.id r = k -> row_ok (apply_patch p r) = true) ->
  table_ok (update_eq_id p k t) = true.
Proof.
  rewrite !table_ok_spec. intros Ht Hp r' Hr'.
  apply In_update_eq_id in Hr' as (r & Hr & ->).
  destruct (String.eqb_spec (Row.id r) k); auto.
Qed.

Lemma coherent_spec w :
  coherent w = true <->
  match UpdateMembership.membership (page w) with
  | None => True
  | Some m =>
      row_ok m = true
      /\ forall r, In r (memberships w) -> Row.id r = Row.id m ->
                   Row.start_date r = Row.start_date m
  end.
Proof.
  unfold coherent. destruct (UpdateMembership.membership (page w)) as [m|];
    [|tauto].
  rewrite andb_true_iff, forallb_forall. split; intros [A B]; split; auto.
  - intros r Hr Hid. specialize (B r Hr). rewrite Hid, String.eqb_refl in B.
    now apply String.eqb_eq.
  - intros r Hr. destruct (String.eqb_spec (Row.id r) (Row.id m)); [|reflexivity].
    apply String.eqb_eq. auto.
Qed.

(** The table after [handleUpdate] is the table before, or an update of the
    rows of the membership that keeps the end date or moves it to one the
    page computed. *)
Lemma handleUpdate_table_cases env w m :
  UpdateMembership.membership (page w) = Some m ->
  memberships (run (UpdateMembership.handleUpdate env) w) = memberships w
  \/ (exists st u,
        memberships (run (UpdateMembership.handleUpdate env) w)
        = update_eq_id (mkPatch None st u) (Row.id m) (memberships w))
  \/ (exists t st u,
        UpdateMembership.calculateNewEndDate
          (Row.end_date m) (UpdateMembership.action (page w)) = inr t
        /\ memberships (run (UpdateMembership.handleUpdate env) w)
           = update_eq_id (mkPatch (Some t) st u) (Row.id m) (memberships w)).
Proof.
  intros Hm. rewrite handleUpdate_table, Hm.
  destruct (request_error env); [now left|].
  destruct (_ =? "cancel")%string; [right; left; eauto|].
  destruct (UpdateMembership.calculateNewEndDate _ _) as [e|t] eqn:Hc;
    [now left|].
  right; right. eauto.
Qed.

(** [handleUpdate] keeps the dates of every row ordered and the page coherent
    with the table. *)
Lemma handleUpdate_keeps_order env w :
  update_page_ok w = true ->
  update_page_ok (run (UpdateMembership.handleUpdate env) w) = true.
Proof.
  unfold update_page_ok. rewrite !andb_true_iff. intros [Ht Hc].
  destruct (UpdateMembership.membership (page w)) as [m|] eqn:Hm;
    [|rewrite handleUpdate_no_membership by exact Hm; auto].
  apply coherent_spec in Hc. rewrite Hm in Hc. destruct Hc as [Hok Hstart].
  set (w' := run (UpdateMembership.handleUpdate env) w).
  assert (T' : table_ok (memberships w') = true).
  { destruct (handleUpdate_table_cases env w m Hm)
      as [E | [(st & u & E) | (t & st & u & Hcalc & E)]];
      subst w'; rewrite E; [exact Ht | |].
    - apply table_ok_update; [exact Ht|]. intros r Hr _.
      change (row_ok r = true). revert r Hr. now apply table_ok_spec.
    - apply table_ok_update; [exact Ht|]. intros r Hr Hid.
      apply row_ok_spec in Hok as (s & e & Hs & He & Hk).
      destruct (calculateNewEndDate_not_before _ _ _ _ He Hcalc)
        as (e' & He' & Hk').
      apply row_ok_spec. exists s, e'. cbn [apply_patch Row.start_date
        Row.end_date set_end_date assign].
      rewrite (Hstart r Hr Hid). repeat split; auto. lia. }
  assert (S' : forall r, In r (memberships w') -> Row.id r = Row.id m ->
                         Row.start_date r = Row.start_date m).
  { intros r Hr Hid.
    destruct (handleUpdate_table_cases env w m Hm)
      as [E | [(st & u & E) | (t & st & u & _ & E)]];
      subst w'; rewrite E in Hr; [now apply Hstart | |];
      apply updated_row_origin in Hr as (r0 & Hr0 & Hid0 & Hs0);
      rewrite Hs0; apply Hstart; auto; congruence. }
  split; [exact T'|]. apply coherent_spec.
  destruct (UpdateMembership.membership (page w')) as [m'|] eqn:Hm'; [|exact I].
  apply handleUpdate_membership in Hm' as [Hsame | (m0 & Hm0 & Hsel)].
  - rewrite Hm in Hsame. injection Hsame as <-. auto.
  - rewrite Hm in Hm0. injection Hm0 as <-.
    apply select_eq_id_single_In in Hsel as [Hin Hid].
    split; [revert m' Hin Hid; intros m' Hin _; now apply (proj1 (table_ok_spec _) T')|].
    intros r Hr Hidr. rewrite (S' m' Hin Hid). apply S'; [exact Hr | congruence].
Qed.

(** The table after [handleSubmit]. *)
Lemma handleSubmit_table zod_email env w :
  memberships (run (AddMembership.handleSubmit zod_email env) w) =
  match AddMembership.first_issue zod_email (AddMembership.formData (page w)) with
  | Some _ => memberships w
  | None =>
      match request_error env with
      | Some _ => memberships w
      | None =>
          let f := AddMembership.formData (page w) in
          match insert_membership (server env)
                  (mkNew (AddMembership.membershipNumber
                            (match read_error env with
                             | None => Some (N.of_nat (List.length (memberships w)))
                             | Some _ => None
                             end))
                         (AddMembership.memberName f) (AddMembership.email f)
                         (AddMembership.phone f) (AddMembership.address f)
                         (AddMembership.duration f)
                         (AddMembership.calculateEndDate (new_Date env)
                            (AddMembership.duration f))
                         (user_id env))
                  (memberships w) with
          | inl _ => memberships w
          | inr t => t
          end
      end
  end.
Proof.
  unfold run, AddMembership.handleSubmit, AddMembership.generateMembershipNumber,
         AddMembership.setLoading, AddMembership.setFormData,
         bind, try_catch, throw_if, throw, ret, get_page, set_page, toast,
         supabase_insert, supabase_count.
  cbn [fst snd page memberships toasts].
  destruct (AddMembership.first_issue _ _); [reflexivity|].
  cbn [fst snd page memberships toasts].
  destruct (request_error env); [reflexivity|].
  destruct (insert_membership _ _ _); reflexivity.
Qed.

Lemma handleSubmit_returns zod_email env w :
  fst (AddMembership.handleSubmit zod_email env w) = inr tt.
Proof.
  unfold AddMembership.handleSubmit, AddMembership.generateMembershipNumber,
         AddMembership.setLoading, AddMembership.setFormData,
         bind, try_catch, throw_if, throw, ret, get_page, set_page, toast,
         supabase_insert, supabase_count.
  cbn [fst snd page memberships toasts].
  destruct (AddMembership.first_issue _ _); [reflexivity|].
  cbn [fst snd page memberships toasts].
  destruct (request_error env); [reflexivity|].
  destruct (insert_membership _ _ _); reflexivity.
Qed.

Lemma calculateEndDate_some today dur e :
  AddMembership.calculateEndDate today dur = Some e ->
  exists n, 6 <= n /\ e = render (addMonths today n) yyyy_MM_dd.
Proof.
  unfold AddMembership.calculateEndDate, addYears.
  destruct (dur =? "6_months")%string; [intros [= <-]; exists 6; split; [lia|reflexivity]|].
  destruct (dur =? "1_year")%string; [intros [= <-]; exists 12; split; [lia|reflexivity]|].
  destruct (dur =? "2_years")%string; [intros [= <-]; exists 24; split; [lia|reflexivity]|].
  discriminate.
Qed.

Lemma date_in_iso_text d :
  valid d = true -> 1 <= getFullYear d -> date_in (iso_text d) = Some d.
Proof. intros Hv Hy. rewrite <- render_iso by exact Hy. now apply date_in_render. Qed.

(** A row the database accepts from the page has its dates in order, when
    the database's day is not after the browser's day six months on. *)
Lemma insert_membership_keeps_order env v t t' :
  clocks_ok env = true ->
  (forall e, new_end_date v = Some e ->
             exists n, 6 <= n /\ e = render (addMonths (new_Date env) n) yyyy_MM_dd) ->
  table_ok t = true ->
  insert_membership (server env) v t = inr t' ->
  table_ok t' = true.
Proof.
  unfold clocks_ok. rewrite !andb_true_iff, !Z.leb_le.
  intros [[[[Vt Yt] Vc] Yc] Hle] Hend Ht.
  unfold insert_membership.
  destruct (new_end_date v) as [e|]; [|discriminate].
  destruct (existsb _ t); [discriminate|].
  destruct (existsb _ t); [discriminate|].
  intros [= <-]. unfold table_ok. rewrite forallb_app. fold (table_ok t).
  rewrite Ht. cbn [forallb andb]. rewrite andb_true_r.
  destruct (Hend e eq_refl) as (n & Hn & ->).
  apply row_ok_spec. cbn [Row.start_date Row.end_date].
  exists (CURRENT_DATE (server env)), (addMonths (new_Date env) n).
  split; [now apply date_in_iso_text|].
  split; [apply stored_render_addMonths; auto; lia|].
  apply date_leb_key in Hle; [|auto using addMonths_valid..].
  destruct (Z.eq_dec n 6) as [-> | Hne]; [exact Hle|].
  pose proof (day_key_addMonths (new_Date env) 6 n Vt ltac:(lia)) as K.
  lia.
Qed.

(** *** The two sessions *)

Lemma distinct_NoDup l : distinct l = true <-> NoDup l.
Proof.
  induction l as [|x l IH]; cbn [distinct].
  - split; [constructor | reflexivity].
  - rewrite andb_true_iff, negb_true_iff, IH. split.
    + intros [Hx Hl]. constructor; [|exact Hl]. intros Hin.
      assert (existsb (String.eqb x) l = true) as E
        by (apply existsb_exists; exists x; split; [exact Hin | apply String.eqb_refl]).
      congruence.
    + intros H. inversion H as [|? ? Hx Hl]; subst. split; [|exact Hl].
      destruct (existsb (String.eqb x) l) eqn:E; [|reflexivity].
      apply existsb_exists in E as (y & Hy & Exy).
      apply String.eqb_eq in Exy. subst. contradiction.
Qed.

Lemma ids_update_eq_id p k t :
  map Row.id (update_eq_id p k t) = map Row.id t.
Proof.
  unfold update_eq_id. rewrite map_map. apply map_ext.
  intros r. destruct (Row.id r =? k)%string; reflexivity.
Qed.

Lemma known_spec w :
  known w = true <->
  match UpdateMembership.membership (page w) with
  | None => True
  | Some m => In (Row.id m) (map Row.id (memberships w))
  end.
Proof.
  unfold known. destruct (UpdateMembership.membership (page w)) as [m|]; [|tauto].
  rewrite existsb_exists, in_map_iff. split; intros (r & A & B).
  - apply String.eqb_eq in B. eauto.
  - exists r. split; [exact B | now apply String.eqb_eq].
Qed.

Lemma system_ok_spec w :
  system_ok w = true <-> Ordered (update_page (page w)) (memberships w).
Proof.
  unfold system_ok, update_page_ok. rewrite !andb_true_iff.
  rewrite table_ok_spec, coherent_spec, known_spec.
  unfold primary_key_ok. rewrite distinct_NoDup.
  cbn [update_view page memberships]. split.
  - intros [[[A B] C] D]. constructor; auto.
    + intros m Hm. rewrite Hm in B. tauto.
    + intros m r Hm. rewrite Hm in B. now apply B.
    + intros m Hm. now rewrite Hm in C.
  - intros [A D B1 B2 C]. repeat split; auto.
    + destruct (UpdateMembership.membership _) as [m|]; [|exact I]. eauto.
    + destruct (UpdateMembership.membership _) as [m|]; [|exact I]. eauto.
Qed.

Lemma on_update_view {A} (m : M UpdateMembership.State A) w :
  update_page (page (snd (on_update m w))) = page (snd (m (update_view w)))
  /\ memberships (snd (on_update m w)) = memberships (snd (m (update_view w))).
Proof.
  unfold on_update, update_view. destruct (m _) as [r w']. auto.
Qed.

Lemma on_add_view {A} (m : M AddMembership.State A) w :
  update_page (page (snd (on_add m w))) = update_page (page w)
  /\ memberships (snd (on_add m w)) = memberships (snd (m (add_view w))).
Proof.
  unfold on_add, add_view. destruct (m _) as [r w']. auto.
Qed.

(** A search leaves the table alone and shows nothing, or what was shown when
    the field is empty, or a row of the table. *)
Lemma searchMembership_result trim toUpperCase env w :
  let w' := run (UpdateMembership.searchMembership trim toUpperCase env) w in
  memberships w' = memberships w
  /\ (UpdateMembership.membership (page w') = UpdateMembership.membership (page w)
      \/ UpdateMembership.membership (page w') = None
      \/ exists r, UpdateMembership.membership (page w') = Some r
                   /\ In r (memberships w)).
Proof.
  unfold run, UpdateMembership.searchMembership,
         UpdateMembership.setSearchLoading, UpdateMembership.setMembership,
         UpdateMembership.setAction,
         bind, try_catch, throw_if, throw, ret, get_page, set_page, toast,
         supabase_select_maybeSingle.
  cbn [fst snd page memberships toasts UpdateMembership.membership
       UpdateMembership.action UpdateMembership.loading
       UpdateMembership.searchLoading UpdateMembership.membershipNumber].
  destruct (trim _ =? "")%string; [cbn; auto|].
  cbn [fst snd page memberships toasts UpdateMembership.membership].
  destruct (read_error env); [cbn; auto|].
  destruct (filter _ (memberships w)) as [|r [|r' l]] eqn:F; cbn; auto.
  split; [reflexivity|]. right; right. exists r. split; [reflexivity|].
  assert (In r (filter (fun r => Row.membership_number r
                                 =? toUpperCase (trim (UpdateMembership.membershipNumber (page w))))%string
                       (memberships w))) as H by (rewrite F; now left).
  now apply filter_In in H.
Qed.

Lemma NoDup_ids_same_row t r r' :
  NoDup (map Row.id t) -> In r t -> In r' t -> Row.id r = Row.id r' -> r = r'.
Proof.
  induction t as [|x t IH]; cbn [map In]; [tauto|].
  intros H [-> | Hr] [-> | Hr'] E; inversion H as [|? ? Hx Ht]; subst; auto.
  - exfalso. apply Hx. rewrite E. now apply in_map.
  - exfalso. apply Hx. rewrite <- E. now apply in_map.
Qed.

Lemma insert_membership_result dflt v t t' :
  insert_membership dflt v t = inr t' ->
  exists row, t' = (t ++ [row])%list
              /\ ~ In (Row.id row) (map Row.id t).
Proof.
  unfold insert_membership. destruct (new_end_date v) as [e|]; [|discriminate].
  destruct (existsb (fun r => Row.id r =? _)%string t) eqn:E1; [discriminate|].
  destruct (existsb (fun r => Row.membership_number r =? _)%string t);
    [discriminate|].
  intros [= <-]. eexists. split; [reflexivity|]. cbn [Row.id].
  intros Hin. apply in_map_iff in Hin as (r & Hr & Hin).
  assert (existsb (fun r => Row.id r =? gen_random_uuid dflt)%string t = true) as C
    by (apply existsb_exists; exists r; split; [exact Hin | now apply String.eqb_eq]).
  congruence.
Qed.

(** Every event keeps the invariant. *)
Lemma handle_keeps_order zod_email trim toUpperCase env e w :
  step_ok (env, e) = true ->
  system_ok w = true ->
  system_ok (snd (handle zod_email trim toUpperCase env e w)) = true.
Proof.
  intros Hstep Hw. apply system_ok_spec in Hw. apply system_ok_spec.
  destruct e; cbn [handle].
  - (* fill_form *)
    destruct (on_add_view (AddMembership.setFormData f) w) as [Ep Et].
    rewrite Ep, Et. exact Hw.
  - (* submit_form *)
    destruct (on_add_view (AddMembership.handleSubmit zod_email env) w)
      as [Ep Et].
    rewrite Ep, Et. fold (run (AddMembership.handleSubmit zod_email env) (add_view w)).
    assert (Tok : table_ok (memberships
                    (run (AddMembership.handleSubmit zod_email env) (add_view w)))
                  = true).
    { rewrite handleSubmit_table.
      assert (Ha : table_ok (memberships (add_view w)) = true)
        by (apply table_ok_spec; apply Hw).
      destruct (AddMembership.first_issue _ _); [exact Ha|].
      destruct (request_error env); [exact Ha|]. cbv zeta.
      destruct (insert_membership _ _ _) as [e|t'] eqn:E; [exact Ha|].
      destruct (AddMembership.calculateEndDate (new_Date env)
                  (AddMembership.duration
                     (AddMembership.formData (page (add_view w)))))
        as [e|] eqn:Hcalc.
      - eapply insert_membership_keeps_order;
          [exact Hstep | | exact Ha | exact E].
        cbn [new_end_date]. intros e0 [= <-].
        exact (calculateEndDate_some _ _ _ Hcalc).
      - unfold insert_membership in E. cbn [new_end_date] in E. discriminate. }
    revert Tok. rewrite handleSubmit_table.
    destruct (AddMembership.first_issue _ _); [intros _; exact Hw|].
    destruct (request_error env); [intros _; exact Hw|]. cbv zeta.
    destruct (insert_membership _ _ _) as [err|t'] eqn:E; [intros _; exact Hw|].
    intros Tok. apply insert_membership_result in E as (row & -> & Hfresh).
    cbn [add_view memberships] in *. destruct Hw as [A D B1 B2 C].
    constructor.
    + now apply table_ok_spec.
    + rewrite map_app. cbn [map]. apply NoDup_app; [exact D | | ].
      * constructor; [intros []|constructor].
      * intros x Hx [<- | []]. contradiction.
    + exact B1.
    + intros m r Hm Hr Hid. apply in_app_or in Hr as [Hr | [<- | []]];
        [now apply (B2 m)|].
      exfalso. apply Hfresh. rewrite Hid. now apply C.
    + intros m Hm. rewrite map_app. apply in_or_app. left. now apply C.
  - (* type_number *)
    destruct (on_update_view (UpdateMembership.onChange toUpperCase value) w)
      as [Ep Et].
    rewrite Ep, Et. cbn. destruct Hw; constructor; auto.
  - (* search *)
    destruct (on_update_view
                (UpdateMembership.searchMembership trim toUpperCase env) w)
      as [Ep Et].
    rewrite Ep, Et.
    destruct (searchMembership_result trim toUpperCase env (update_view w))
      as [Ht Hm]. unfold run in Ht, Hm. rewrite Ht.
    cbn [update_view memberships page] in *. destruct Hw as [A D B1 B2 C].
    constructor; auto.
    + intros m Hm'. rewrite Hm' in Hm.
      destruct Hm as [Hm | [Hm | (r & [= ->] & Hr)]]; [eauto | discriminate | auto].
    + intros m r Hm' Hr Hid. rewrite Hm' in Hm.
      destruct Hm as [Hm | [Hm | (r0 & [= ->] & Hr0)]];
        [eauto | discriminate |].
      now rewrite (NoDup_ids_same_row _ _ _ D Hr Hr0 Hid).
    + intros m Hm'. rewrite Hm' in Hm.
      destruct Hm as [Hm | [Hm | (r & [= ->] & Hr)]];
        [eauto | discriminate | now apply in_map].
  - (* select_action *)
    destruct (on_update_view (UpdateMembership.setAction a) w) as [Ep Et].
    rewrite Ep, Et. cbn. destruct Hw; constructor; auto.
  - (* update *)
    destruct (on_update_view (UpdateMembership.handleUpdate env) w) as [Ep Et].
    rewrite Ep, Et.
    fold (run (UpdateMembership.handleUpdate env) (update_view w)).
    assert (Hu : update_page_ok (update_view w) = true).
    { unfold update_page_ok. apply andb_true_iff. split.
      - apply table_ok_spec. apply Hw.
      - apply coherent_spec. cbn [update_view page memberships].
        destruct (UpdateMembership.membership _) as [m|] eqn:Hm; [|exact I].
        destruct Hw as [A D B1 B2 C]. split; eauto. }
    pose proof (handleUpdate_keeps_order env _ Hu) as Hu'.
    unfold update_page_ok in Hu'. apply andb_true_iff in Hu' as [T' C'].
    apply coherent_spec in C'.
    assert (Ids : map Row.id
                    (memberships (run (UpdateMembership.handleUpdate env)
                                      (update_view w)))
                  = map Row.id (memberships w)).
    { destruct (UpdateMembership.membership (page (update_view w))) as [m|] eqn:Hm.
      - destruct (handleUpdate_table_cases env _ m Hm)
          as [E | [(st & u & E) | (t & st & u & _ & E)]];
          rewrite E; try apply ids_update_eq_id; reflexivity.
      - rewrite handleUpdate_no_membership by exact Hm. reflexivity. }
    destruct Hw as [A D B1 B2 C]. constructor.
    + now apply table_ok_spec.
    + now rewrite Ids.
    + intros m' Hm'. rewrite Hm' in C'. tauto.
    + intros m' r Hm' Hr Hid. rewrite Hm' in C'. now apply C'.
    + intros m' Hm'. rewrite Ids.
      apply handleUpdate_membership in Hm' as [Hsame | (m0 & Hm0 & Hsel)].
      * now apply C.
      * apply select_eq_id_single_In in Hsel as [_ ->]. now apply C.
  - (* clear *)
    destruct (on_update_view UpdateMembership.onClear w) as [Ep Et].
    rewrite Ep, Et. cbn. destruct Hw; constructor; auto; discriminate.
Qed.

Lemma play_keeps_order zod_email trim toUpperCase steps : forall w,
  forallb step_ok steps = true ->
  system_ok w = true ->
  system_ok (play zod_email trim toUpperCase steps w) = true.
Proof.
  induction steps as [|[env e] steps IH]; intros w Hs Hw; cbn [play];
    [exact Hw|].
  cbn [forallb] in Hs. apply andb_true_iff in Hs as [H1 H2].
  apply IH; [exact H2|]. now apply handle_keeps_order.
Qed.

Lemma initial_ok t :
  table_ok t = true -> primary_key_ok t = true -> system_ok (initial t) = true.
Proof.
  intros Ht Hk. unfold system_ok, update_page_ok, coherent, known, initial,
    update_view.
  cbn [page memberships update_page UpdateMembership.membership].
  now rewrite Ht, Hk.
Qed.

(** C8, as the specification states it, fails at creation: [start_date] is
    the database's [CURRENT_DATE] and [end_date] is computed by the page from
    the browser's date, and nothing compares the two.  From a browser whose
    clock reads 1 January 2024, a six-month membership is created on the
    database's 15 June 2025: the page reports success, and the row starts on
    2025-06-15 and ends on 2024-07-01. *)
Lemma creation_stores_end_date_before_start_date :
  let w := play (fun _ => true) (fun s => s) (fun s => s)
                (creation env_lagging) (initial []) in
  system_ok (initial []) = true
  /\ toasts w
     = [toast_success "Membership created successfully! Number: MEM000001"]
  /\ map Row.start_date (memberships w) = ["2025-06-15"%string]
  /\ map Row.end_date (memberships w) = ["2024-07-01"%string]
  /\ map (fun r => date_in (Row.start_date r)) (memberships w)
     = [Some (mkDate 2025 5 15)]
  /\ map (fun r => date_in (Row.end_date r)) (memberships w)
     = [Some (mkDate 2024 6 1)]
  /\ date_lt (mkDate 2024 6 1) (mkDate 2025 5 15)
  /\ table_ok (memberships w) = false
  /\ system_ok w = false.
Proof.
  repeat split; reflexivity.
Qed.

(** C8, amended.  [endDate >= startDate] is kept by every extension and
    cancellation, and holds at a creation when the database's date is not
    after the browser's date six months on.  From a state in which every row
    has its dates in order (no two rows sharing their [id], and the
    membership shown on the update page, if any, a possibly stale copy of a
    row), every row has them in order again after any run of the two pages:
    creations by [handleSubmit] under such clocks, extensions and
    cancellations by [handleUpdate] under any clocks, searches and edits of
    the forms in between, whether or not the backend carries the requests
    out. *)
Theorem end_date_never_before_start_date
  (zod_email : string -> bool) (trim toUpperCase : string -> string)
  (steps : list (Env * Event)) (w : World Pages)
  (Hw : system_ok w = true)
  (Hsteps : forallb step_ok steps = true) :
  system_ok (play zod_email trim toUpperCase steps w) = true
  /\ forall r, In r (memberships (play zod_email trim toUpperCase steps w)) ->
       exists s e, date_in (Row.start_date r) = Some s
                   /\ date_in (Row.end_date r) = Some e
                   /\ date_le s e.
Proof.
  pose proof (play_keeps_order zod_email trim toUpperCase steps w Hsteps Hw) as H.
  split; [exact H|]. intros r Hr.
  apply system_ok_spec in H. destruct H as [A _ _ _ _].
  specialize (A r Hr). unfold row_ok in A.
  destruct (date_in (Row.start_date r)) as [s|]; [|discriminate].
  destruct (date_in (Row.end_date r)) as [e|]; [|discriminate].
  exists s, e. repeat split. unfold date_le. unfold date_leb in A.
  destruct (date_compare s e); congruence.
Qed.

Lemma end_date_never_before_start_date_witness :
  let w := play (fun _ => true) (fun s => s) (fun s => s) desk_evening
                (initial [cancelled_row]) in
  date_lt (new_Date env_evening) (CURRENT_DATE (server env_evening))
  /\ system_ok w = true
  /\ map Row.status (memberships w) = ["cancelled"; "active"]
  /\ map Row.start_date (memberships w) = ["2024-01-31"; "2025-06-15"]
  /\ map Row.end_date (memberships w) = ["2024-07-31"; "2026-12-14"].
Proof.
  split; [reflexivity|]. split; [|repeat split; reflexivity].
  exact (proj1 (end_date_never_before_start_date
                  (fun _ => true) (fun s => s) (fun s => s) desk_evening
                  (initial [cancelled_row]) eq_refl eq_refl)).
Defined.

End Invariant.

(* ================================================================== *)
(** * Further properties *)

(** ** Membership numbers, further *)

Section NumbersMore.
Import Text DateFns Db Handler Spec.

Lemma padStart_zeros_read n w :
  read_N (padStart (String_of_N n) w "0") 0 = (n, "").
Proof.
  rewrite <- (append_nil_r (padStart (String_of_N n) w "0")).
  now rewrite read_N_padded.
Qed.

Lemma membershipNumber_inj a b :
  AddMembership.membershipNumber (Some a) = AddMembership.membershipNumber (Some b) ->
  a = b.
Proof.
  unfold AddMembership.membershipNumber. intros E.
  cbn [append] in E. injection E as E.
  apply (f_equal (fun s => fst (read_N s 0))) in E.
  rewrite !padStart_zeros_read in E. cbn [fst] in E. lia.
Qed.

(** X1.  The page's generator never gives two different counts the same
    membership number. *)
Theorem membershipNumber_never_collides (a b : N) (Hab : a <> b) :
  AddMembership.membershipNumber (Some a) <> AddMembership.membershipNumber (Some b).
Proof. intros E. apply Hab. now apply membershipNumber_inj. Qed.

Lemma membershipNumber_never_collides_witness :
  AddMembership.membershipNumber (Some 99999%N)
  <> AddMembership.membershipNumber (Some 999999%N).
Proof. apply membershipNumber_never_collides. lia. Defined.

Lemma length_cycle_zeros k : String.length (cycle "0" "0" k) = k.
Proof. rewrite cycle_zeros by auto. apply length_zeros. Qed.

Lemma length_LPAD s w : String.length (LPAD s w "0") = w.
Proof.
  unfold LPAD. destruct (Nat.leb_spec w (String.length s)).
  - now apply length_substring_0.
  - rewrite length_append, length_cycle_zeros. lia.
Qed.

(** X2.  The generator of the database returns a text of exactly nine
    characters that begins with "MEM" for every count whose successor fits
    the INT counter, and the error "integer out of range" for every other
    count. *)
Theorem generate_membership_number_fixed_width (n : N) :
  ((n + 1 <= 2147483647)%N ->
     exists t, generate_membership_number_at n = inr t
               /\ String.length t = 9%nat
               /\ substring 0 3 t = "MEM")
  /\ ((2147483647 < n + 1)%N ->
        generate_membership_number_at n = inl integer_out_of_range).
Proof.
  unfold generate_membership_number_at. split; intros H.
  - destruct (N.leb_spec (n + 1) 2147483647); [|lia].
    eexists. split; [reflexivity|]. split.
    + cbn [append String.length]. now rewrite length_LPAD.
    + cbn [append substring].
      now destruct (LPAD (String_of_N (n + 1)) 6 "0").
  - destruct (N.leb_spec (n + 1) 2147483647); [lia | reflexivity].
Qed.

Lemma generate_membership_number_fixed_width_witness :
  (exists t, generate_membership_number_at 1234567 = inr t
             /\ String.length t = 9%nat /\ substring 0 3 t = "MEM")
  /\ generate_membership_number_at 2147483647 = inl integer_out_of_range.
Proof.
  split.
  - apply (proj1 (generate_membership_number_fixed_width 1234567)). lia.
  - apply (proj2 (generate_membership_number_fixed_width 2147483647)). lia.
Defined.

End NumbersMore.

(** ** End dates, further *)

Section EndDatesMore.
Import Text DateFns Db Handler Spec.
Import UpdateMembership.
Local Open Scope Z_scope.

Lemma length_addLeadingZeros v k :
  0 <= v -> (Z.to_N v < 10 ^ N.of_nat (S k))%N ->
  String.length (addLeadingZeros v (S k)) = S k.
Proof.
  intros Hv Hlt. unfold addLeadingZeros.
  destruct (Z.ltb_spec v 0); [lia|]. cbn [append].
  replace (Z.abs_N v) with (Z.to_N v) by (destruct v; [reflexivity .. | lia]).
  rewrite padStart_zeros, length_append, length_zeros.
  pose proof (length_String_of_N_le _ _ Hlt). lia.
Qed.

Lemma length_addLeadingZeros_long v k :
  0 <= v -> (10 ^ N.of_nat k <= Z.to_N v)%N ->
  (k < String.length (addLeadingZeros v k))%nat.
Proof.
  intros Hv Hle. unfold addLeadingZeros.
  destruct (Z.ltb_spec v 0); [lia|]. cbn [append].
  replace (Z.abs_N v) with (Z.to_N v) by (destruct v; [reflexivity .. | lia]).
  rewrite padStart_zeros, length_append, length_zeros.
  pose proof (length_String_of_N_gt _ _ Hle). lia.
Qed.

Lemma length_token_MM d : valid d = true -> String.length (token_MM d) = 2%nat.
Proof.
  intros Hv. apply valid_spec in Hv. unfold token_MM.
  apply length_addLeadingZeros; [lia|]. change (10 ^ N.of_nat 2)%N with 100%N. lia.
Qed.

Lemma length_token_dd d : valid d = true -> String.length (token_dd d) = 2%nat.
Proof.
  intros Hv. apply valid_spec in Hv.
  pose proof (getDaysInMonth_bounds (getFullYear d) (getMonth d)).
  unfold token_dd.
  apply length_addLeadingZeros; [lia|]. change (10 ^ N.of_nat 2)%N with 100%N. lia.
Qed.

Lemma length_iso_text d :
  valid d = true ->
  String.length (iso_text d)
  = (String.length (addLeadingZeros (getFullYear d) 4) + 6)%nat.
Proof.
  intros Hv. unfold iso_text.
  rewrite !length_append, length_token_MM, length_token_dd by exact Hv.
  cbn [String.length]. lia.
Qed.

(** What the page prints, it reads again, up to the year 9999. *)
Lemma parseISO_render d :
  valid d = true -> 1 <= getFullYear d <= 9999 ->
  parseISO (render d yyyy_MM_dd) = Some d.
Proof.
  intros Hv Hy. rewrite render_iso by lia. unfold parseISO.
  rewrite length_iso_text by exact Hv.
  rewrite length_addLeadingZeros;
    [| lia | change (10 ^ N.of_nat 4)%N with 10000%N; lia].
  cbn [Nat.add Nat.eqb]. apply read_iso_text; [exact Hv | lia].
Qed.

Lemma parseISO_render_far d :
  valid d = true -> 10000 <= getFullYear d ->
  parseISO (render d yyyy_MM_dd) = None.
Proof.
  intros Hv Hy. rewrite render_iso by lia. unfold parseISO.
  rewrite length_iso_text by exact Hv.
  pose proof (length_addLeadingZeros_long (getFullYear d) 4 ltac:(lia)) as L.
  change (10 ^ N.of_nat 4)%N with 10000%N in L. specialize (L ltac:(lia)).
  destruct (Nat.eqb_spec (String.length (addLeadingZeros (getFullYear d) 4) + 6) 10);
    [lia | reflexivity].
Qed.

Lemma same_month a b :
  valid a = true -> valid b = true -> month_index a = month_index b ->
  getFullYear a = getFullYear b /\ getMonth a = getMonth b.
Proof.
  intros Ha Hb E. apply valid_spec in Ha. apply valid_spec in Hb.
  unfold month_index in E. lia.
Qed.

Lemma getFullYear_addMonths_le d n :
  valid d = true -> 0 <= n <= 24 ->
  getFullYear d <= getFullYear (addMonths d n) <= getFullYear d + 2.
Proof.
  intros Hd Hn. pose proof (addMonths_month_index d n) as E.
  pose proof (addMonths_valid d n Hd) as V.
  apply valid_spec in Hd. apply valid_spec in V. unfold month_index in E. lia.
Qed.

Lemma calculateNewEndDate_months s d a :
  parseISO s = Some d -> is_extension a = true ->
  exists n, 6 <= n <= 24 /\
    calculateNewEndDate s a = inr (render (addMonths d n) yyyy_MM_dd).
Proof.
  intros Hs Ha. apply is_extension_cases in Ha as [-> | [-> | ->]].
  - exists 6. split; [lia|]. now apply calculateNewEndDate_6_months.
  - exists 12. split; [lia|]. now apply calculateNewEndDate_1_year.
  - exists 24. split; [lia|]. now apply calculateNewEndDate_2_years.
Qed.

(** X3.  An extended end date can be extended again as long as its year has
    four digits: [calculateNewEndDate] reads its own result back as the date
    it computed.  Once an extension has carried the year past 9999, every
    further extension of that end date throws "Invalid time value". *)
Theorem extended_end_date_can_be_extended_until_9999
  (s a a' : string) (d : Date)
  (Hs : parseISO s = Some d) (Hy : 1 <= getFullYear d)
  (Ha : is_extension a = true) (Ha' : is_extension a' = true) :
  exists n t,
    6 <= n <= 24
    /\ calculateNewEndDate s a = inr t
    /\ t = render (addMonths d n) yyyy_MM_dd
    /\ (getFullYear (addMonths d n) <= 9999 ->
        parseISO t = Some (addMonths d n)
        /\ exists t', calculateNewEndDate t a' = inr t')
    /\ (9999 < getFullYear (addMonths d n) ->
        calculateNewEndDate t a' = inl (mkError "Invalid time value")).
Proof.
  destruct (calculateNewEndDate_months s d a Hs Ha) as (n & Hn & Hc).
  exists n, (render (addMonths d n) yyyy_MM_dd).
  pose proof (parseISO_read_iso _ _ Hs) as Hr.
  apply read_iso_sound in Hr as [Hv _].
  pose proof (addMonths_valid d n Hv) as Hv'.
  pose proof (getFullYear_addMonths_le d n Hv ltac:(lia)) as Hb.
  repeat split; try assumption; try lia.
  - apply parseISO_render; [exact Hv' | lia].
  - assert (P : parseISO (render (addMonths d n) yyyy_MM_dd) = Some (addMonths d n))
      by (apply parseISO_render; [exact Hv' | lia]).
    destruct (calculateNewEndDate_months _ _ a' P Ha') as (n' & _ & Hc').
    eauto.
  - intros Hfar. unfold calculateNewEndDate.
    rewrite parseISO_render_far by (auto; lia).
    apply is_extension_cases in Ha' as [-> | [-> | ->]]; reflexivity.
Qed.

Lemma extended_end_date_can_be_extended_until_9999_witness :
  exists n t,
    6 <= n <= 24
    /\ calculateNewEndDate "9998-03-31" "2_years" = inr t
    /\ t = render (addMonths (mkDate 9998 2 31) n) yyyy_MM_dd
    /\ (getFullYear (addMonths (mkDate 9998 2 31) n) <= 9999 ->
        parseISO t = Some (addMonths (mkDate 9998 2 31) n)
        /\ exists t', calculateNewEndDate t "6_months" = inr t')
    /\ (9999 < getFullYear (addMonths (mkDate 9998 2 31) n) ->
        calculateNewEndDate t "6_months" = inl (mkError "Invalid time value")).
Proof.
  exact (extended_end_date_can_be_extended_until_9999
           "9998-03-31" "2_years" "6_months" (mkDate 9998 2 31)
           eq_refl ltac:(simpl; lia) eq_refl eq_refl).
Defined.

(** Adding months in two steps: the same month as in one step, never a later
    day, and the same day when the start is on the 28th or before. *)
Lemma addMonths_twice d a b :
  valid d = true ->
  month_index (addMonths (addMonths d a) b) = month_index (addMonths d (a + b))
  /\ getDate (addMonths (addMonths d a) b) <= getDate (addMonths d (a + b))
  /\ (getDate d <= 28 -> addMonths (addMonths d a) b = addMonths d (a + b)).
Proof.
  intros Hd.
  pose proof (addMonths_valid d a Hd) as V1.
  pose proof (addMonths_valid (addMonths d a) b V1) as V2.
  pose proof (addMonths_valid d (a + b) Hd) as V3.
  assert (E : month_index (addMonths (addMonths d a) b)
              = month_index (addMonths d (a + b)))
    by (rewrite !addMonths_month_index; lia).
  destruct (same_month _ _ V2 V3 E) as [Ey Em].
  assert (Hday : getDate (addMonths (addMonths d a) b) <= getDate (addMonths d (a + b))
                 /\ (getDate d <= 28 ->
                     getDate (addMonths (addMonths d a) b)
                     = getDate (addMonths d (a + b)))).
  { destruct (Z.eq_dec a 0) as [-> | Ha]; [rewrite addMonths_0; cbn; lia|].
    destruct (Z.eq_dec b 0) as [-> | Hb];
      [rewrite addMonths_0, Z.add_0_r; lia|].
    pose proof (addMonths_clamps d a Ha) as C1.
    pose proof (addMonths_clamps (addMonths d a) b Hb) as C2.
    rewrite Ey, Em in C2.
    pose proof (getDaysInMonth_bounds (getFullYear (addMonths d a))
                                      (getMonth (addMonths d a))).
    pose proof (getDaysInMonth_bounds (getFullYear (addMonths d (a + b)))
                                      (getMonth (addMonths d (a + b)))).
    destruct (Z.eq_dec (a + b) 0) as [E0 | Hab].
    - rewrite E0 in *. rewrite addMonths_0 in *. lia.
    - pose proof (addMonths_clamps d (a + b) Hab) as C3. lia. }
  split; [exact E|]. split; [apply Hday|].
  intros H28. destruct Hday as [_ Hday]. specialize (Hday H28).
  destruct (addMonths (addMonths d a) b) as [y1 m1 d1],
           (addMonths d (a + b)) as [y2 m2 d2].
  cbn [getFullYear getMonth getDate] in *. congruence.
Qed.

(** X4.  Two six-month extensions in a row against one one-year extension of
    the same stored end date: both end in the same month of the same year,
    the two-step date is never the later one, and the two are the same date
    when the stored end date falls on the 28th of its month or before. *)
Theorem two_six_month_extensions_vs_one_year
  (s : string) (d : Date)
  (Hs : parseISO s = Some d) (Hy : 1 <= getFullYear d <= 9998) :
  exists t1 t2 t3 e2 e3,
    calculateNewEndDate s "6_months" = inr t1
    /\ calculateNewEndDate t1 "6_months" = inr t2
    /\ calculateNewEndDate s "1_year" = inr t3
    /\ date_in t2 = Some e2 /\ date_in t3 = Some e3
    /\ getFullYear e2 = getFullYear e3 /\ getMonth e2 = getMonth e3
    /\ date_le e2 e3
    /\ (getDate d <= 28 -> t2 = t3).
Proof.
  pose proof (parseISO_read_iso _ _ Hs) as Hr.
  apply read_iso_sound in Hr as [Hv _].
  pose proof (addMonths_valid d 6 Hv) as V1.
  pose proof (getFullYear_addMonths_le d 6 Hv ltac:(lia)) as B1.
  assert (B1' : getFullYear (addMonths d 6) <= getFullYear d + 1).
  { pose proof (addMonths_month_index d 6) as E.
    apply valid_spec in Hv. apply valid_spec in V1. unfold month_index in E. lia. }
  assert (P1 : parseISO (render (addMonths d 6) yyyy_MM_dd) = Some (addMonths d 6))
    by (apply parseISO_render; [exact V1 | lia]).
  destruct (addMonths_twice d 6 6 Hv) as (Ei & Hle & Heq).
  change (6 + 6) with 12 in *.
  pose proof (addMonths_valid (addMonths d 6) 6 V1) as V2.
  pose proof (addMonths_valid d 12 Hv) as V3.
  destruct (same_month _ _ V2 V3 Ei) as [Ey Em].
  exists (render (addMonths d 6) yyyy_MM_dd),
         (render (addMonths (addMonths d 6) 6) yyyy_MM_dd),
         (render (addMonths d 12) yyyy_MM_dd),
         (addMonths (addMonths d 6) 6), (addMonths d 12).
  split; [now apply calculateNewEndDate_6_months|].
  split; [now apply calculateNewEndDate_6_months|].
  split; [now apply calculateNewEndDate_1_year|].
  split; [apply stored_render_addMonths; auto; lia|].
  split; [apply stored_render_addMonths; auto; lia|].
  split; [exact Ey|]. split; [exact Em|]. split.
  - unfold date_le, date_compare. rewrite Ey, Em, !Z.compare_refl.
    intros C. apply Z.compare_gt_iff in C. lia.
  - intros H28. now rewrite Heq.
Qed.

Lemma two_six_month_extensions_vs_one_year_witness :
  exists t1 t2 t3 e2 e3,
    calculateNewEndDate "2024-08-31" "6_months" = inr t1
    /\ calculateNewEndDate t1 "6_months" = inr t2
    /\ calculateNewEndDate "2024-08-31" "1_year" = inr t3
    /\ date_in t2 = Some e2 /\ date_in t3 = Some e3
    /\ getFullYear e2 = getFullYear e3 /\ getMonth e2 = getMonth e3
    /\ date_le e2 e3
    /\ (getDate (mkDate 2024 7 31) <= 28 -> t2 = t3).
Proof.
  exact (two_six_month_extensions_vs_one_year
           "2024-08-31" (mkDate 2024 7 31) eq_refl ltac:(simpl; lia)).
Defined.

End EndDatesMore.

(** ** The update page, further *)

Section UpdatePageMore.
Import Text DateFns Db Handler App Spec Facts.
Import UpdateMembership.
Local Open Scope Z_scope.

Ltac norm :=
  cbn [fst snd page memberships toasts membership action loading
       searchLoading membershipNumber].

Ltac run_update :=
  unfold run, handleUpdate, setLoading, setMembership, bind, try_catch, lift,
         throw_if, throw, ret, get_page, set_page, toast,
         supabase_update, supabase_select_single;
  norm.

Lemma filter_none {A} (f : A -> bool) (l : list A) :
  (forall x, In x l -> f x = false) -> filter f l = [].
Proof.
  induction l as [|x l IH]; intros H; cbn [filter]; [reflexivity|].
  rewrite (H x (or_introl eq_refl)). apply IH. intros y Hy. apply H. now right.
Qed.

Lemma filter_id_unique t m :
  NoDup (map Row.id t) -> In m t ->
  filter (fun r => Row.id r =? Row.id m)%string t = [m].
Proof.
  induction t as [|x t IH]; cbn [map In filter]; [tauto|].
  intros H Hin. inversion H as [|? ? Hx Ht]; subst.
  destruct Hin as [-> | Hin].
  - rewrite String.eqb_refl. f_equal.
    apply filter_none. intros r Hr.
    destruct (String.eqb_spec (Row.id r) (Row.id m)) as [E|]; [|reflexivity].
    exfalso. apply Hx. rewrite <- E. now apply in_map.
  - destruct (String.eqb_spec (Row.id x) (Row.id m)) as [E|]; [|auto].
    exfalso. apply Hx. rewrite E. now apply in_map.
Qed.

Lemma filter_update_eq_id p k k' t :
  filter (fun r => Row.id r =? k')%string (update_eq_id p k t)
  = update_eq_id p k (filter (fun r => Row.id r =? k')%string t).
Proof.
  induction t as [|x t IH]; [reflexivity|].
  cbn [update_eq_id map filter].
  assert (E : Row.id (if (Row.id x =? k)%string then apply_patch p x else x)
              = Row.id x) by (destruct (Row.id x =? k)%string; reflexivity).
  rewrite E. fold (update_eq_id p k t). rewrite IH.
  destruct (Row.id x =? k')%string; reflexivity.
Qed.

(** The refresh after an update finds the updated copy of the row. *)
Lemma select_after_update p t m :
  NoDup (map Row.id t) -> In m t ->
  select_eq_id_single (Row.id m) (update_eq_id p (Row.id m) t)
  = Some (apply_patch p m).
Proof.
  intros Hn Hin. unfold select_eq_id_single.
  rewrite filter_update_eq_id, filter_id_unique by assumption.
  cbn [update_eq_id map]. now rewrite String.eqb_refl.
Qed.

(** X5.  An extension that goes through, in full: for a membership found on
    the update page (a row of a table with distinct ids) whose end date the
    page reads, in a year up to 9997, with a backend that carries out both
    requests, the row and only its [end_date], [status] and [updated_at]
    are rewritten, the page shows the rewritten row, is no longer loading,
    and announces the new end date in a success notification. *)
Theorem extension_goes_through
  (env : Env) (w : World State) (m : Row.t) (d : Date)
  (Hm : membership (page w) = Some m)
  (Hin : In m (memberships w))
  (Hids : NoDup (map Row.id (memberships w)))
  (Ha : is_extension (action (page w)) = true)
  (Hd : parseISO (Row.end_date m) = Some d)
  (Hy : 1 <= getFullYear d <= 9997)
  (Hreq : request_error env = None)
  (Hread : read_error env = None) :
  exists n,
    6 <= n <= 24
    /\ calculateNewEndDate (Row.end_date m) (action (page w))
       = inr (render (addMonths d n) yyyy_MM_dd)
    /\ let p := mkPatch (Some (render (addMonths d n) yyyy_MM_dd))
                        (Some "active") (Some (toISOString env)) in
       handleUpdate env w
       = (inr tt,
          mkWorld (mkState false (searchLoading (page w))
                     (membershipNumber (page w)) (Some (apply_patch p m))
                     (action (page w)))
                  (update_eq_id p (Row.id m) (memberships w))
                  (toasts w
                   ++ [toast_success
                         ("Membership extended until "
                          ++ render (addMonths d n) MMM_dd_yyyy)])%list).
Proof.
  destruct (calculateNewEndDate_months _ _ _ Hd Ha) as (n & Hn & Hc).
  exists n. split; [exact Hn|]. split; [exact Hc|]. cbv zeta.
  pose proof (parseISO_read_iso _ _ Hd) as Hr.
  apply read_iso_sound in Hr as [Hv _].
  pose proof (getFullYear_addMonths_le d n Hv ltac:(lia)) as Hb.
  assert (P : parseISO (render (addMonths d n) yyyy_MM_dd) = Some (addMonths d n))
    by (apply parseISO_render; [now apply addMonths_valid | lia]).
  assert (Hc' : (action (page w) =? "cancel")%string = false).
  { apply is_extension_cases in Ha as [-> | [-> | ->]]; reflexivity. }
  run_update. rewrite Hm, Hc', Hc, Hreq. norm.
  rewrite P. cbn [format]. rewrite Hread. norm.
  rewrite (select_after_update _ _ _ Hids Hin). reflexivity.
Qed.

Lemma extension_goes_through_witness :
  exists n,
    6 <= n <= 24
    /\ calculateNewEndDate "2024-07-31" "6_months"
       = inr (render (addMonths (mkDate 2024 6 31) n) yyyy_MM_dd)
    /\ let p := mkPatch (Some (render (addMonths (mkDate 2024 6 31) n) yyyy_MM_dd))
                        (Some "active") (Some "2025-06-15T09:00:00.000Z"%string) in
       handleUpdate Sample.env0 Sample.cancelled_world
       = (inr tt,
          mkWorld (mkState false false "MEM000001"
                     (Some (apply_patch p Sample.cancelled_row)) "6_months")
                  (update_eq_id p "4be1a2f0" [Sample.cancelled_row])
                  [toast_success
                     ("Membership extended until "
                      ++ render (addMonths (mkDate 2024 6 31) n) MMM_dd_yyyy)]).
Proof.
  exact (extension_goes_through Sample.env0 Sample.cancelled_world
           Sample.cancelled_row (mkDate 2024 6 31)
           eq_refl (or_introl eq_refl)
           ltac:(repeat constructor; simpl; tauto)
           eq_refl eq_refl ltac:(simpl; lia) eq_refl eq_refl).
Defined.

(** X6.  A cancellation that goes through, in full: the row of the
    membership keeps its dates and every other column but [status], now
    'cancelled', and [updated_at]; the page shows the rewritten row and the
    notification of success. *)
Theorem cancellation_goes_through
  (env : Env) (w : World State) (m : Row.t)
  (Hm : membership (page w) = Some m)
  (Hin : In m (memberships w))
  (Hids : NoDup (map Row.id (memberships w)))
  (Ha : action (page w) = "cancel"%string)
  (Hreq : request_error env = None)
  (Hread : read_error env = None) :
  let p := mkPatch None (Some "cancelled") (Some (toISOString env)) in
  handleUpdate env w
  = (inr tt,
     mkWorld (mkState false (searchLoading (page w)) (membershipNumber (page w))
                (Some (apply_patch p m)) "cancel")
             (update_eq_id p (Row.id m) (memberships w))
             (toasts w ++ [toast_success "Membership cancelled successfully"])%list)
  /\ Row.status (apply_patch p m) = "cancelled"%string
  /\ Row.end_date (apply_patch p m) = Row.end_date m
  /\ fixed_part (apply_patch p m) = fixed_part m.
Proof.
  cbv zeta. split; [|repeat split].
  run_update. rewrite Hm, Ha. cbn [String.eqb Ascii.eqb Bool.eqb].
  rewrite Hreq. norm. rewrite Hread. norm.
  rewrite (select_after_update _ _ _ Hids Hin). reflexivity.
Qed.

Lemma cancellation_goes_through_witness :
  let w := mkWorld (mkState false false "MEM000001"
                      (Some Sample.expired_row) "cancel")
                   [Sample.expired_row] [] in
  map Row.status (memberships (snd (handleUpdate Sample.env0 w)))
  = ["cancelled"%string]
  /\ map Row.end_date (memberships (snd (handleUpdate Sample.env0 w)))
     = ["2020-01-01"%string]
  /\ toasts (snd (handleUpdate Sample.env0 w))
     = [toast_success "Membership cancelled successfully"].
Proof.
  intros w.
  destruct (cancellation_goes_through Sample.env0 w Sample.expired_row
              eq_refl (or_introl eq_refl)
              ltac:(repeat constructor; simpl; tauto)
              eq_refl eq_refl eq_refl) as (E & _).
  rewrite E. repeat split; reflexivity.
Defined.

(** X7.  A request the backend does not carry out changes nothing: the table
    and the membership shown stay as they were, the page is no longer
    loading, and the one notification added is the error, with the message
    of the backend or, when that is empty, "Failed to update membership". *)
Theorem refused_update_changes_nothing
  (env : Env) (w : World State) (m : Row.t) (e : string)
  (Hm : membership (page w) = Some m)
  (Ha : (action (page w) =? "cancel")%string = true
        \/ exists t, calculateNewEndDate (Row.end_date m) (action (page w)) = inr t)
  (Hreq : request_error env = Some e) :
  handleUpdate env w
  = (inr tt,
     mkWorld (mkState false (searchLoading (page w)) (membershipNumber (page w))
                (Some m) (action (page w)))
             (memberships w)
             (toasts w
              ++ [toast_error (or_else e "Failed to update membership")])%list).
Proof.
  run_update. rewrite Hm. norm.
  destruct (action (page w) =? "cancel")%string eqn:Hc.
  - rewrite Hreq. norm. now rewrite Hm.
  - destruct Ha as [Ha | [t Ht]]; [discriminate|].
    rewrite Ht. cbn [lift]. rewrite Hreq. norm. now rewrite Hm.
Qed.

Lemma refused_update_changes_nothing_witness :
  let env := mkEnv (mkDate 2025 5 15) "2025-06-15T09:00:00.000Z"
               (server Sample.env0) (Some "") None (Some "admin-1") in
  handleUpdate env Sample.expired_world
  = (inr tt,
     mkWorld (mkState false false "MEM000001" (Some Sample.expired_row) "1_year")
             [Sample.expired_row]
             [toast_error "Failed to update membership"]).
Proof.
  intros env.
  exact (refused_update_changes_nothing env Sample.expired_world
           Sample.expired_row "" eq_refl
           (or_intror (ex_intro _ "2021-01-01"%string eq_refl)) eq_refl).
Defined.

Lemma fixed_part_update_eq_id p k t :
  map fixed_part (update_eq_id p k t) = map fixed_part t.
Proof.
  unfold update_eq_id. rewrite map_map. apply map_ext.
  intros r. destruct (Row.id r =? k)%string; reflexivity.
Qed.

(** X9.  Whatever it is asked and however the backend answers,
    [handleUpdate] adds and removes no row, leaves in every row the id, the
    membership number, the contact fields, the duration, the start date and
    the creation data as they were, and does not touch a row with another id
    than that of the membership shown. *)
Theorem handleUpdate_leaves_the_rest (env : Env) (w : World State) :
  map fixed_part (memberships (run (handleUpdate env) w))
  = map fixed_part (memberships w)
  /\ forall r,
       match membership (page w) with
       | Some m => Row.id r <> Row.id m
       | None => True
       end ->
       (In r (memberships (run (handleUpdate env) w)) <-> In r (memberships w)).
Proof.
  destruct (membership (page w)) as [m|] eqn:Hm;
    [|rewrite handleUpdate_no_membership by exact Hm; split; [reflexivity | tauto]].
  assert (F : forall p r, Row.id r <> Row.id m ->
                (In r (update_eq_id p (Row.id m) (memberships w))
                 <-> In r (memberships w))).
  { intros p r Hr. rewrite In_update_eq_id. split.
    - intros (r0 & Hr0 & ->).
      destruct (String.eqb_spec (Row.id r0) (Row.id m)) as [E|]; [|exact Hr0].
      exfalso. apply Hr. exact E.
    - intros Hin. exists r. split; [exact Hin|].
      destruct (String.eqb_spec (Row.id r) (Row.id m)); [contradiction | reflexivity]. }
  destruct (handleUpdate_table_cases env w m Hm)
    as [E | [(st & u & E) | (t & st & u & _ & E)]]; rewrite E;
    (split; [try apply fixed_part_update_eq_id; reflexivity
            | intros r Hr; try apply F; tauto]).
Qed.

Lemma update_eq_id_twice p q k t :
  (set_end_date q <> None \/ set_end_date p = None) ->
  (set_status q <> None \/ set_status p = None) ->
  (set_updated_at q <> None \/ set_updated_at p = None) ->
  update_eq_id q k (update_eq_id p k t) = update_eq_id q k t.
Proof.
  intros H1 H2 H3. unfold update_eq_id. rewrite map_map. apply map_ext.
  intros r. destruct (String.eqb_spec (Row.id r) k) as [E|E].
  - change (Row.id (apply_patch p r)) with (Row.id r).
    destruct (String.eqb_spec (Row.id r) k); [|contradiction].
    destruct p as [[pe|] [ps|] [pu|]], q as [[qe|] [qs|] [qu|]];
      cbn in H1, H2, H3; try reflexivity;
      exfalso; intuition congruence.
  - destruct (String.eqb_spec (Row.id r) k); [contradiction | reflexivity].
Qed.

Lemma handleUpdate_without_refresh env w e :
  read_error env = Some e ->
  membership (page (run (handleUpdate env) w)) = membership (page w)
  /\ action (page (run (handleUpdate env) w)) = action (page w).
Proof.
  intros Hread. run_update.
  destruct (membership (page w)) as [m|] eqn:Hm;
    [|cbn [snd]; rewrite Hm; auto].
  norm. rewrite Hread.
  destruct (action (page w) =? "cancel")%string.
  - destruct (request_error env); norm; rewrite ?Hm; auto.
  - destruct (calculateNewEndDate _ _) as [x|t]; cbn [lift throw ret]; norm;
      rewrite ?Hm; auto.
    destruct (request_error env); norm; rewrite ?Hm; auto.
    destruct (format (parseISO t) MMM_dd_yyyy); cbn [lift throw ret]; norm;
      rewrite ?Hm; auto.
Qed.

Lemma but_updated_at_update_eq_id e st u u' k t :
  map but_updated_at (update_eq_id (mkPatch e st u) k t)
  = map but_updated_at (update_eq_id (mkPatch e st u') k t).
Proof.
  unfold update_eq_id. rewrite !map_map. apply map_ext.
  intros r. destruct (Row.id r =? k)%string; [|reflexivity].
  destruct e, st, u, u'; reflexivity.
Qed.

(** X10.  When the refresh after an update fails, the page keeps its copy of
    the membership and the selected action, and pressing "Update" again, at
    a later instant, does not compound: a second request that is carried out
    leaves the table as it would have left it without the first one, and
    when the first request was carried out the table after the second run
    is, in every column but [updated_at], the table the first run left. *)
Theorem repeated_update_without_refresh_does_not_compound
  (env1 env2 : Env) (w : World State) (e : string)
  (Hread : read_error env1 = Some e) :
  membership (page (run (handleUpdate env1) w)) = membership (page w)
  /\ action (page (run (handleUpdate env1) w)) = action (page w)
  /\ (request_error env2 = None ->
      memberships (run (handleUpdate env2) (run (handleUpdate env1) w))
      = memberships (run (handleUpdate env2) w))
  /\ (request_error env1 = None ->
      map but_updated_at
        (memberships (run (handleUpdate env2) (run (handleUpdate env1) w)))
      = map but_updated_at (memberships (run (handleUpdate env1) w))).
Proof.
  destruct (handleUpdate_without_refresh env1 w e Hread) as [Em Ea].
  split; [exact Em|]. split; [exact Ea|].
  rewrite (handleUpdate_table env2 (run (handleUpdate env1) w)), Em, Ea.
  rewrite (handleUpdate_table env2 w), (handleUpdate_table env1 w).
  destruct (membership (page w)) as [m|]; [|split; reflexivity].
  split.
  - intros ->. destruct (request_error env1); [reflexivity|].
    destruct (action (page w) =? "cancel")%string.
    + apply update_eq_id_twice; cbn; auto; left; discriminate.
    + destruct (calculateNewEndDate _ _); [reflexivity|].
      apply update_eq_id_twice; cbn; left; discriminate.
  - intros ->. destruct (request_error env2); [reflexivity|].
    destruct (action (page w) =? "cancel")%string.
    + rewrite update_eq_id_twice by (cbn; auto; left; discriminate).
      apply but_updated_at_update_eq_id.
    + destruct (calculateNewEndDate _ _); [reflexivity|].
      rewrite update_eq_id_twice by (cbn; left; discriminate).
      apply but_updated_at_update_eq_id.
Qed.

Lemma repeated_update_without_refresh_does_not_compound_witness :
  let env1 := mkEnv (mkDate 2025 5 15) "2025-06-15T09:00:00.000Z"
                (server Sample.env0) None (Some "timeout") (Some "admin-1") in
  let env2 := mkEnv (mkDate 2025 5 15) "2025-06-15T09:00:07.250Z"
                (server Sample.env0) None (Some "timeout") (Some "admin-1") in
  let once := memberships (run (handleUpdate env1) Sample.expired_world) in
  let twice :=
    memberships (run (handleUpdate env2)
                     (run (handleUpdate env1) Sample.expired_world)) in
  twice = memberships (run (handleUpdate env2) Sample.expired_world)
  /\ map but_updated_at twice = map but_updated_at once
  /\ map Row.end_date once = ["2021-01-01"%string]
  /\ map Row.end_date twice = ["2021-01-01"%string]
  /\ map Row.updated_at once = ["2025-06-15T09:00:00.000Z"%string]
  /\ map Row.updated_at twice = ["2025-06-15T09:00:07.250Z"%string].
Proof.
  intros env1 env2 once twice.
  destruct (repeated_update_without_refresh_does_not_compound
              env1 env2 Sample.expired_world "timeout" eq_refl)
    as (_ & _ & H1 & H2).
  split; [exact (H1 eq_refl)|]. split; [exact (H2 eq_refl)|].
  repeat split; reflexivity.
Defined.

Lemma handleUpdate_extension_world env w m d :
  membership (page w) = Some m ->
  In m (memberships w) ->
  NoDup (map Row.id (memberships w)) ->
  is_extension (action (page w)) = true ->
  parseISO (Row.end_date m) = Some d ->
  1 <= getFullYear d <= 9997 ->
  request_error env = None ->
  read_error env = None ->
  let p := mkPatch (Some (render (addMonths d (months (action (page w)))) yyyy_MM_dd))
                   (Some "active") (Some (toISOString env)) in
  run (handleUpdate env) w
  = mkWorld (mkState false (searchLoading (page w)) (membershipNumber (page w))
               (Some (apply_patch p m)) (action (page w)))
            (update_eq_id p (Row.id m) (memberships w))
            (toasts w
             ++ [toast_success
                   ("Membership extended until "
                    ++ render (addMonths d (months (action (page w)))) MMM_dd_yyyy)])%list.
Proof.
  intros Hm Hin Hids Ha Hd Hy Hreq Hread.
  destruct (calculateNewEndDate_by_months _ _ _ Hd Ha) as (Hc & Hn).
  cbv zeta.
  pose proof (parseISO_read_iso _ _ Hd) as Hr.
  apply read_iso_sound in Hr as [Hv _].
  pose proof (getFullYear_addMonths_le d (months (action (page w))) Hv ltac:(lia))
    as Hb.
  assert (P : parseISO (render (addMonths d (months (action (page w)))) yyyy_MM_dd)
              = Some (addMonths d (months (action (page w)))))
    by (apply parseISO_render; [now apply addMonths_valid | lia]).
  assert (Hc' : (action (page w) =? "cancel")%string = false).
  { apply is_extension_cases in Ha as [-> | [-> | ->]]; reflexivity. }
  run_update. rewrite Hm, Hc', Hc, Hreq. norm.
  rewrite P. cbn [format]. rewrite Hread. norm.
  rewrite (select_after_update _ _ _ Hids Hin). reflexivity.
Qed.

(** X11.  When the refresh succeeds, pressing "Update" again compounds: the
    second extension starts from the end date the first one wrote, so the
    row ends up with the end date two extensions after the one it had. *)
Theorem refreshed_extensions_compound
  (env1 env2 : Env) (w : World State) (m : Row.t) (d : Date)
  (Hm : membership (page w) = Some m)
  (Hin : In m (memberships w))
  (Hids : NoDup (map Row.id (memberships w)))
  (Ha : is_extension (action (page w)) = true)
  (Hd : parseISO (Row.end_date m) = Some d)
  (Hy : 1 <= getFullYear d <= 9995)
  (Hreq1 : request_error env1 = None) (Hread1 : read_error env1 = None)
  (Hreq2 : request_error env2 = None) (Hread2 : read_error env2 = None) :
  let k := months (action (page w)) in
  memberships (run (handleUpdate env2) (run (handleUpdate env1) w))
  = update_eq_id
      (mkPatch (Some (render (addMonths (addMonths d k) k) yyyy_MM_dd))
               (Some "active") (Some (toISOString env2)))
      (Row.id m) (memberships w).
Proof.
  cbv zeta.
  destruct (calculateNewEndDate_by_months _ _ _ Hd Ha) as (_ & Hn).
  pose proof (parseISO_read_iso _ _ Hd) as Hr.
  apply read_iso_sound in Hr as [Hv _].
  pose proof (getFullYear_addMonths_le d (months (action (page w))) Hv ltac:(lia))
    as Hb.
  pose proof (addMonths_valid d (months (action (page w))) Hv) as Hv'.
  rewrite (handleUpdate_extension_world env1 w m d) by (auto; lia).
  set (p1 := mkPatch _ _ _).
  rewrite (handleUpdate_extension_world env2 _ (apply_patch p1 m)
             (addMonths d (months (action (page w))))); norm.
  - cbn [Row.id apply_patch].
    apply update_eq_id_twice; cbn; left; discriminate.
  - reflexivity.
  - apply In_update_eq_id. exists m. split; [exact Hin|].
    now rewrite String.eqb_refl.
  - now rewrite ids_update_eq_id.
  - exact Ha.
  - subst p1. cbn [Row.end_date apply_patch set_end_date assign].
    apply parseISO_render; [exact Hv' | lia].
  - lia.
  - exact Hreq2.
  - exact Hread2.
Qed.

Lemma refreshed_extensions_compound_witness :
  map Row.end_date
    (memberships (run (handleUpdate Sample.env0)
                      (run (handleUpdate Sample.env0) Sample.cancelled_world)))
  = ["2025-07-31"%string].
Proof.
  rewrite (refreshed_extensions_compound Sample.env0 Sample.env0
             Sample.cancelled_world Sample.cancelled_row (mkDate 2024 6 31)
             eq_refl (or_introl eq_refl)
             ltac:(repeat constructor; simpl; tauto)
             eq_refl eq_refl ltac:(simpl; lia) eq_refl eq_refl eq_refl eq_refl).
  reflexivity.
Defined.

(** *** Searching *)

Ltac run_search :=
  unfold run, searchMembership, setSearchLoading, setMembership, setAction,
         bind, try_catch, throw_if, throw, ret, get_page, set_page, toast,
         supabase_select_maybeSingle;
  norm.

Lemma filter_number_unique t r :
  NoDup (map Row.membership_number t) -> In r t ->
  filter (fun x => Row.membership_number x =? Row.membership_number r)%string t
  = [r].
Proof.
  induction t as [|x t IH]; cbn [map In filter]; [tauto|].
  intros H Hin. inversion H as [|? ? Hx Ht]; subst.
  destruct Hin as [-> | Hin].
  - rewrite String.eqb_refl. f_equal.
    apply filter_none. intros y Hy.
    destruct (String.eqb_spec (Row.membership_number y) (Row.membership_number r))
      as [E|]; [|reflexivity].
    exfalso. apply Hx. rewrite <- E. now apply in_map.
  - destruct (String.eqb_spec (Row.membership_number x) (Row.membership_number r))
      as [E|]; [|auto].
    exfalso. apply Hx. rewrite E. now apply in_map.
Qed.

(** X12.  A search that finds: with membership numbers distinct in the
    table, a field that is not blank and a backend that answers, the row
    whose number is the field trimmed and in upper case is shown, the action
    is set back to the six-month extension, and neither the table nor the
    notifications change. *)
Theorem search_shows_the_membership
  (trim toUpperCase : string -> string)
  (env : Env) (w : World State) (r : Row.t)
  (Hblank : trim (membershipNumber (page w)) <> ""%string)
  (Hread : read_error env = None)
  (Hnum : NoDup (map Row.membership_number (memberships w)))
  (Hin : In r (memberships w))
  (Hr : Row.membership_number r
        = toUpperCase (trim (membershipNumber (page w)))) :
  searchMembership trim toUpperCase env w
  = (inr tt,
     mkWorld (mkState (loading (page w)) false (membershipNumber (page w))
                (Some r) "6_months")
             (memberships w) (toasts w)).
Proof.
  run_search.
  destruct (String.eqb_spec (trim (membershipNumber (page w))) "");
    [contradiction|].
  norm. rewrite Hread, <- Hr, (filter_number_unique _ _ Hnum Hin).
  reflexivity.
Qed.

Lemma search_shows_the_membership_witness :
  let w := mkWorld (mkState false false "MEM000001" None "cancel")
                   [Sample.cancelled_row] [] in
  searchMembership (fun s => s) (fun s => s) Sample.env0 w
  = (inr tt,
     mkWorld (mkState false false "MEM000001" (Some Sample.cancelled_row)
                "6_months")
             [Sample.cancelled_row] []).
Proof.
  intros w.
  exact (search_shows_the_membership (fun s => s) (fun s => s) Sample.env0 w
           Sample.cancelled_row ltac:(discriminate) eq_refl
           ltac:(repeat constructor; simpl; tauto)
           (or_introl eq_refl) eq_refl).
Defined.

(** X13.  A search that does not find.  With a blank field nothing happens
    but the notification "Please enter a membership number": no request is
    made and the membership shown stays.  Otherwise the membership shown is
    cleared first, and stays cleared with "Membership not found" when no row
    has the number, and with the error of the backend when the request
    fails; the table is read only. *)
Theorem search_that_does_not_find
  (trim toUpperCase : string -> string) (env : Env) (w : World State) :
  let sought := toUpperCase (trim (membershipNumber (page w))) in
  let cleared := mkState (loading (page w)) false (membershipNumber (page w))
                         None (action (page w)) in
  (trim (membershipNumber (page w)) = ""%string ->
     searchMembership trim toUpperCase env w
     = (inr tt,
        mkWorld (page w) (memberships w)
                (toasts w ++ [toast_error "Please enter a membership number"])%list))
  /\ (trim (membershipNumber (page w)) <> ""%string ->
        read_error env = None ->
        (forall r, In r (memberships w) -> Row.membership_number r <> sought) ->
        searchMembership trim toUpperCase env w
        = (inr tt,
           mkWorld cleared (memberships w)
                   (toasts w ++ [toast_error "Membership not found"])%list))
  /\ (forall e, trim (membershipNumber (page w)) <> ""%string ->
        read_error env = Some e ->
        searchMembership trim toUpperCase env w
        = (inr tt,
           mkWorld cleared (memberships w)
                   (toasts w
                    ++ [toast_error (or_else e "Failed to search membership")])%list)).
Proof.
  cbv zeta. split; [|split].
  - intros Hb. run_search. rewrite Hb. cbn [String.eqb]. now destruct w.
  - intros Hb Hread Hno. run_search.
    destruct (String.eqb_spec (trim (membershipNumber (page w))) "");
      [contradiction|].
    norm. rewrite Hread, filter_none; [reflexivity|].
    intros x Hx. apply String.eqb_neq. now apply Hno.
  - intros e Hb Hread. run_search.
    destruct (String.eqb_spec (trim (membershipNumber (page w))) "");
      [contradiction|].
    norm. rewrite Hread. reflexivity.
Qed.

Lemma search_that_does_not_find_witness :
  let w := mkWorld (mkState false false "MEM000009" (Some Sample.cancelled_row)
                      "cancel")
                   [Sample.cancelled_row] [] in
  searchMembership (fun s => s) (fun s => s) Sample.env0 w
  = (inr tt,
     mkWorld (mkState false false "MEM000009" None "cancel")
             [Sample.cancelled_row] [toast_error "Membership not found"]).
Proof.
  intros w.
  apply (proj1 (proj2 (search_that_does_not_find (fun s => s) (fun s => s)
                         Sample.env0 w))).
  - discriminate.
  - reflexivity.
  - intros r [<- | []]. discriminate.
Defined.

End UpdatePageMore.

(** ** The page "Add Membership", further *)

Section AddPageMore.
Import Text DateFns Db Handler App Spec Facts.
Local Open Scope Z_scope.

Ltac run_submit :=
  unfold run, AddMembership.handleSubmit, AddMembership.generateMembershipNumber,
         AddMembership.setLoading, AddMembership.setFormData,
         bind, try_catch, throw_if, throw, ret, get_page, set_page, toast,
         supabase_insert, supabase_count;
  cbn [fst snd page memberships toasts AddMembership.formData
       AddMembership.loading].

Lemma first_issue_none zod_email f :
  AddMembership.first_issue zod_email f = None <-> form_ok zod_email f.
Proof.
  unfold AddMembership.first_issue, form_ok, is_extension.
  destruct (Nat.ltb_spec (String.length (AddMembership.memberName f)) 2);
    [split; [discriminate | lia]|].
  destruct (Nat.ltb_spec 100 (String.length (AddMembership.memberName f)));
    [split; [discriminate | lia]|].
  destruct (zod_email (AddMembership.email f)); cbn [negb];
    [|split; [discriminate | intros (_ & H' & _); discriminate]].
  destruct (Nat.ltb_spec (String.length (AddMembership.phone f)) 10);
    [split; [discriminate | lia]|].
  destruct (Nat.ltb_spec 15 (String.length (AddMembership.phone f)));
    [split; [discriminate | lia]|].
  destruct (Nat.ltb_spec (String.length (AddMembership.address f)) 5);
    [split; [discriminate | lia]|].
  destruct (Nat.ltb_spec 200 (String.length (AddMembership.address f)));
    [split; [discriminate | lia]|].
  destruct (_ || _ || _)%bool;
    [split; [intros _; repeat split; lia | reflexivity]
    |split; [discriminate | intros (_ & _ & _ & _ & H'); discriminate]].
Qed.

Lemma calculateEndDate_by_months today dur :
  is_extension dur = true ->
  AddMembership.calculateEndDate today dur
  = Some (render (addMonths today (months dur)) yyyy_MM_dd).
Proof.
  intros H. apply is_extension_cases in H as [-> | [-> | ->]]; reflexivity.
Qed.

(** The row a submission sends, once the database has filled in its
    defaults. *)
Lemma insert_membership_row dflt v t t' :
  insert_membership dflt v t = inr t' ->
  exists e, new_end_date v = Some e
    /\ t' = (t ++ [Row.mk (gen_random_uuid dflt) (new_membership_number v)
                     (new_member_name v) (new_email v) (new_phone v)
                     (new_address v) (new_duration v) "active"
                     (iso_text (CURRENT_DATE dflt)) e
                     (new_created_by v) (NOW dflt) (NOW dflt)])%list
    /\ ~ In (gen_random_uuid dflt) (map Row.id t)
    /\ ~ In (new_membership_number v) (map Row.membership_number t).
Proof.
  unfold insert_membership. destruct (new_end_date v) as [e|]; [|discriminate].
  destruct (existsb (fun r => Row.id r =? _)%string t) eqn:E1; [discriminate|].
  destruct (existsb (fun r => Row.membership_number r =? _)%string t) eqn:E2;
    [discriminate|].
  intros [= <-]. exists e. repeat split.
  - intros Hin. apply in_map_iff in Hin as (r & Hr & Hin).
    assert (existsb (fun r => Row.id r =? gen_random_uuid dflt)%string t = true)
      by (apply existsb_exists; exists r; split; [exact Hin | now apply String.eqb_eq]).
    congruence.
  - intros Hin. apply in_map_iff in Hin as (r & Hr & Hin).
    assert (existsb (fun r => Row.membership_number r =? new_membership_number v)%string
                    t = true)
      by (apply existsb_exists; exists r; split; [exact Hin | now apply String.eqb_eq]).
    congruence.
Qed.

Lemma insert_membership_fresh dflt v t e :
  new_end_date v = Some e ->
  ~ In (gen_random_uuid dflt) (map Row.id t) ->
  ~ In (new_membership_number v) (map Row.membership_number t) ->
  insert_membership dflt v t
  = inr (t ++ [Row.mk (gen_random_uuid dflt) (new_membership_number v)
                 (new_member_name v) (new_email v) (new_phone v)
                 (new_address v) (new_duration v) "active"
                 (iso_text (CURRENT_DATE dflt)) e
                 (new_created_by v) (NOW dflt) (NOW dflt)])%list.
Proof.
  intros He Hid Hnum. unfold insert_membership. rewrite He.
  destruct (existsb (fun r => Row.id r =? _)%string t) eqn:E1.
  - exfalso. apply Hid. apply existsb_exists in E1 as (r & Hr & E).
    apply String.eqb_eq in E. rewrite <- E. now apply in_map.
  - destruct (existsb (fun r => Row.membership_number r =? _)%string t) eqn:E2;
      [|reflexivity].
    exfalso. apply Hnum. apply existsb_exists in E2 as (r & Hr & E).
    apply String.eqb_eq in E. rewrite <- E. now apply in_map.
Qed.

(** X14.  A submission that goes through, in full: for a form that meets the
    schema, a backend that carries out the request, an id and a generated
    number that the table does not hold yet, the table gains one row, last,
    with the fields of the form, the generated number, status 'active', the
    database's date as start date and the date the chosen duration after the
    browser's date as end date; the form is emptied and the number is
    announced. *)
Theorem submission_goes_through
  (zod_email : string -> bool) (env : Env) (w : World AddMembership.State)
  (Hform : form_ok zod_email (AddMembership.formData (page w)))
  (Hreq : request_error env = None)
  (Hid : ~ In (gen_random_uuid (server env)) (map Row.id (memberships w)))
  (Hnum : ~ In (AddMembership.membershipNumber
                  (match read_error env with
                   | None => Some (N.of_nat (List.length (memberships w)))
                   | Some _ => None
                   end))
               (map Row.membership_number (memberships w))) :
  let f := AddMembership.formData (page w) in
  let number := AddMembership.membershipNumber
                  (match read_error env with
                   | None => Some (N.of_nat (List.length (memberships w)))
                   | Some _ => None
                   end) in
  AddMembership.handleSubmit zod_email env w
  = (inr tt,
     mkWorld (AddMembership.mkState
                (AddMembership.mkForm "" "" "" "" "6_months") false)
             (memberships w
              ++ [Row.mk (gen_random_uuid (server env)) number
                    (AddMembership.memberName f) (AddMembership.email f)
                    (AddMembership.phone f) (AddMembership.address f)
                    (AddMembership.duration f) "active"
                    (iso_text (CURRENT_DATE (server env)))
                    (render (addMonths (new_Date env)
                               (months (AddMembership.duration f))) yyyy_MM_dd)
                    (user_id env) (NOW (server env)) (NOW (server env))])%list
             (toasts w
              ++ [toast_success
                    ("Membership created successfully! Number: " ++ number)])%list).
Proof.
  cbv zeta. pose proof Hform as (_ & _ & _ & _ & Hdur).
  apply first_issue_none in Hform.
  run_submit. rewrite Hform.
  cbn [fst snd page memberships toasts AddMembership.formData
       AddMembership.loading].
  rewrite Hreq.
  erewrite insert_membership_fresh;
    [reflexivity
    |cbn [new_end_date]; apply calculateEndDate_by_months; exact Hdur
    |exact Hid
    |exact Hnum].
Qed.

Lemma submission_goes_through_witness :
  let w := mkWorld (AddMembership.mkState
                      (AddMembership.mkForm "Grace Hopper" "grace@example.org"
                         "0123456789" "1 Navy Yard" "1_year") false)
                   [Sample.cancelled_row] [] in
  map Row.membership_number
      (memberships (snd (AddMembership.handleSubmit (fun _ => true) Sample.env0 w)))
  = ["MEM000001"; "MEM000002"]%string
  /\ map Row.end_date
       (memberships (snd (AddMembership.handleSubmit (fun _ => true) Sample.env0 w)))
     = ["2024-07-31"; "2026-06-15"]%string.
Proof.
  intros w.
  rewrite (submission_goes_through (fun _ => true) Sample.env0 w
             ltac:(repeat split; simpl; lia) eq_refl
             ltac:(simpl; intros [H | []]; discriminate H)
             ltac:(simpl; intros [H | []]; discriminate H)).
  split; reflexivity.
Defined.

(** X15.  Only a form that meets the schema reaches the table, and then as
    one row at the end: after [handleSubmit] the table is the table before,
    or the form meets every rule of the schema and the table is the table
    before followed by one row that carries the five fields of the form,
    status 'active', and an id and a membership number no earlier row has. *)
Theorem only_valid_forms_reach_the_table
  (zod_email : string -> bool) (env : Env) (w : World AddMembership.State) :
  let f := AddMembership.formData (page w) in
  let t' := memberships (run (AddMembership.handleSubmit zod_email env) w) in
  t' = memberships w
  \/ (form_ok zod_email f
      /\ exists row,
           t' = (memberships w ++ [row])%list
           /\ Row.member_name row = AddMembership.memberName f
           /\ Row.email row = AddMembership.email f
           /\ Row.phone row = AddMembership.phone f
           /\ Row.address row = AddMembership.address f
           /\ Row.duration row = AddMembership.duration f
           /\ Row.status row = "active"%string
           /\ ~ In (Row.id row) (map Row.id (memberships w))
           /\ ~ In (Row.membership_number row)
                   (map Row.membership_number (memberships w))).
Proof.
  cbv zeta. rewrite handleSubmit_table.
  destruct (AddMembership.first_issue _ _) eqn:Hf; [now left|].
  destruct (request_error env); [now left|]. cbv zeta.
  destruct (insert_membership _ _ _) as [e|t'] eqn:E; [now left|].
  right. split; [now apply first_issue_none|].
  apply insert_membership_row in E as (e & _ & -> & Hid & Hnum).
  eexists. split; [reflexivity|]. cbn [Row.member_name Row.email Row.phone
    Row.address Row.duration Row.status Row.id Row.membership_number
    new_member_name new_email new_phone new_address new_duration
    new_membership_number] in *.
  repeat split; assumption.
Qed.

End AddPageMore.

(** ** Runs of the two pages, further *)

Section RunsMore.
Import Text DateFns Db Handler App Spec Facts.

(** What one event can do to the table: nothing, an update of the rows under
    one id, or an insert the database accepted. *)
Lemma handle_table_step zod_email trim toUpperCase env e w :
  let t' := memberships (snd (handle zod_email trim toUpperCase env e w)) in
  t' = memberships w
  \/ (exists p k, t' = update_eq_id p k (memberships w))
  \/ (exists dflt v, insert_membership dflt v (memberships w) = inr t').
Proof.
  cbv zeta. destruct e; cbn [handle].
  - left. now destruct (on_add_view (AddMembership.setFormData f) w) as [_ ->].
  - destruct (on_add_view (AddMembership.handleSubmit zod_email env) w)
      as [_ ->].
    fold (run (AddMembership.handleSubmit zod_email env) (add_view w)).
    rewrite handleSubmit_table. cbn [add_view memberships page].
    destruct (AddMembership.first_issue _ _); [now left|].
    destruct (request_error env); [now left|]. cbv zeta.
    destruct (insert_membership _ _ _) as [err|t'] eqn:E; [now left|].
    right; right. eauto.
  - left. now destruct (on_update_view
                          (UpdateMembership.onChange toUpperCase value) w)
      as [_ ->].
  - left. destruct (on_update_view
                      (UpdateMembership.searchMembership trim toUpperCase env) w)
      as [_ ->].
    destruct (searchMembership_result trim toUpperCase env (update_view w))
      as [H _].
    unfold run in H. now rewrite H.
  - left. now destruct (on_update_view (UpdateMembership.setAction a) w)
      as [_ ->].
  - destruct (on_update_view (UpdateMembership.handleUpdate env) w) as [_ ->].
    fold (run (UpdateMembership.handleUpdate env) (update_view w)).
    destruct (UpdateMembership.membership (page (update_view w))) as [m|] eqn:Hm.
    + destruct (handleUpdate_table_cases env _ m Hm)
        as [E | [(st & u & E) | (t & st & u & _ & E)]]; rewrite E;
        cbn [update_view memberships]; eauto.
    + left. now rewrite handleUpdate_no_membership.
  - left. now destruct (on_update_view UpdateMembership.onClear w) as [_ ->].
Qed.

Lemma numbers_update_eq_id p k t :
  map Row.membership_number (update_eq_id p k t) = map Row.membership_number t.
Proof.
  unfold update_eq_id. rewrite map_map. apply map_ext.
  intros r. destruct (Row.id r =? k)%string; reflexivity.
Qed.

Lemma NoDup_snoc {A} (l : list A) x : NoDup l -> ~ In x l -> NoDup (l ++ [x]).
Proof.
  intros Hl Hx. apply NoDup_app; [exact Hl | repeat constructor; intros [] |].
  intros y Hy [<- | []]. contradiction.
Qed.

(** X16.  The two keys of the table survive every run of the two pages: if
    no two rows share their id and no two rows share their membership
    number, the same is true after any sequence of events, whatever the
    backend answers. *)
Theorem keys_stay_unique
  (zod_email : string -> bool) (trim toUpperCase : string -> string)
  (steps : list (Env * Event)) (w : World Pages)
  (Hid : primary_key_ok (memberships w) = true)
  (Hnum : numbers_distinct (memberships w) = true) :
  primary_key_ok (memberships (play zod_email trim toUpperCase steps w)) = true
  /\ numbers_distinct (memberships (play zod_email trim toUpperCase steps w))
     = true.
Proof.
  revert w Hid Hnum. induction steps as [|[env e] steps IH]; intros w Hid Hnum;
    cbn [play]; [auto|].
  apply IH; unfold primary_key_ok, numbers_distinct in *;
    rewrite distinct_NoDup in *;
    destruct (handle_table_step zod_email trim toUpperCase env e w)
      as [E | [(p & k & E) | (dflt & v & E)]];
    try (rewrite E; assumption);
    try (rewrite E, ?ids_update_eq_id, ?numbers_update_eq_id; assumption);
    apply insert_membership_row in E as (x & _ & E & Hi & Hn);
    rewrite E, map_app; cbn [map]; now apply NoDup_snoc.
Qed.

Lemma keys_stay_unique_witness :
  primary_key_ok
    (memberships (play (fun _ => true) (fun s => s) (fun s => s)
                       Sample.desk_day (initial [Sample.cancelled_row]))) = true
  /\ numbers_distinct
       (memberships (play (fun _ => true) (fun s => s) (fun s => s)
                          Sample.desk_day (initial [Sample.cancelled_row]))) = true.
Proof.
  exact (keys_stay_unique (fun _ => true) (fun s => s) (fun s => s)
           Sample.desk_day (initial [Sample.cancelled_row]) eq_refl eq_refl).
Defined.

(** X17.  No run of the two pages removes a row or rewrites what identifies
    it: the ids, membership numbers, contact fields, durations, start dates
    and creation data of the table before are, in the same order, those of
    the first rows of the table after. *)
Theorem rows_are_never_removed_or_renamed
  (zod_email : string -> bool) (trim toUpperCase : string -> string)
  (steps : list (Env * Event)) (w : World Pages) :
  exists added,
    map fixed_part (memberships (play zod_email trim toUpperCase steps w))
    = (map fixed_part (memberships w) ++ added)%list.
Proof.
  revert w. induction steps as [|[env e] steps IH]; intros w; cbn [play].
  - exists []. now rewrite app_nil_r.
  - destruct (IH (snd (handle zod_email trim toUpperCase env e w)))
      as (added & ->).
    destruct (handle_table_step zod_email trim toUpperCase env e w)
      as [E | [(p & k & E) | (dflt & v & E)]].
    + rewrite E. eauto.
    + rewrite E, fixed_part_update_eq_id. eauto.
    + apply insert_membership_row in E as (x & _ & E & _).
      rewrite E, map_app, <- app_assoc. eauto.
Qed.

Lemma NoDup_map_injective {A B} (f : A -> B) (l : list A) :
  (forall a b, f a = f b -> a = b) -> NoDup l -> NoDup (map f l).
Proof.
  intros Hf. induction 1 as [|x l Hx Hl IH]; cbn [map]; constructor; [|exact IH].
  intros Hin. apply in_map_iff in Hin as (y & E & Hy).
  apply Hf in E. subst. contradiction.
Qed.

(** One submission on a table numbered in sequence. *)
Lemma handleSubmit_keeps_sequence zod_email env w :
  sequential (memberships w) ->
  sequential (memberships (run (AddMembership.handleSubmit zod_email env) w)).
Proof.
  intros Hs. rewrite handleSubmit_table.
  destruct (AddMembership.first_issue _ _); [exact Hs|].
  destruct (request_error env); [exact Hs|]. cbv zeta.
  destruct (insert_membership _ _ _) as [err|t'] eqn:E; [exact Hs|].
  apply insert_membership_row in E as (x & _ & -> & _ & Hn).
  cbn [new_membership_number] in Hn. unfold sequential in *.
  rewrite map_app, length_app. cbn [map List.length Row.membership_number].
  rewrite Nat.add_1_r, seq_S, map_app, <- Hs. cbn [map Nat.add]. f_equal. f_equal.
  destruct (read_error env); [|reflexivity].
  destruct (memberships w) as [|r0 t]; [reflexivity|].
  exfalso. apply Hn. cbn [map List.length seq] in Hs. injection Hs as H0 _.
  cbn [map]. left. rewrite H0. reflexivity.
Qed.

(** X18.  Memberships created one after the other from an empty table are
    numbered in sequence: whatever forms are submitted and whatever the
    backend answers to each request, the numbers of the rows are, in order,
    those of the counts 0, 1, 2, ..., that is MEM000001, MEM000002, ... *)
Theorem submissions_number_in_sequence
  (zod_email : string -> bool) (l : list (Env * AddMembership.FormData)) :
  sequential (submissions zod_email l [])
  /\ NoDup (map Row.membership_number (submissions zod_email l [])).
Proof.
  assert (S : forall t, sequential t -> sequential (submissions zod_email l t)).
  { induction l as [|[env f] l IH]; intros t Ht; cbn [submissions]; [exact Ht|].
    apply IH.
    apply (handleSubmit_keeps_sequence zod_email env
             (mkWorld (AddMembership.mkState f false) t [])). exact Ht. }
  specialize (S [] eq_refl). split; [exact S|].
  rewrite S. apply NoDup_map_injective; [|apply seq_NoDup].
  intros a b E. apply membershipNumber_inj in E. lia.
Qed.

End RunsMore.

(** ** Roles and policies, further *)

Section RolesMore.
Import Text DateFns Db Spec Facts Policy.

Lemma handle_new_user_inv dflt NEW a a' :
  handle_new_user dflt NEW a = inr a' ->
  exists name mail,
    profiles a' = (profiles a ++ [mkProfile (NEW_id NEW) name mail (NOW dflt)])%list
    /\ ~ In (NEW_id NEW) (map profile_id (profiles a))
    /\ user_roles a'
       = (user_roles a
          ++ [mkUserRole (gen_random_uuid dflt) (NEW_id NEW)
                (first_user_gets_admin (N.of_nat (List.length (user_roles a))))])%list.
Proof.
  intros H. pose proof (handle_new_user_roles _ _ _ _ H) as Hr.
  revert H. unfold handle_new_user.
  destruct (COALESCE _ _) as [name|]; [|discriminate].
  destruct (NEW_email NEW) as [mail|]; [|discriminate].
  destruct (existsb _ (profiles a)) eqn:E; [discriminate|].
  intros H. apply insert_user_role_inv in H as [_ Hp]. cbn [profiles] in Hp.
  exists name, mail. repeat split; [exact Hp | | exact Hr].
  intros Hin. apply in_map_iff in Hin as (x & Hx & Hin).
  assert (existsb (fun p => profile_id p =? NEW_id NEW)%string (profiles a) = true)
    by (apply existsb_exists; exists x; split; [exact Hin | now apply String.eqb_eq]).
  congruence.
Qed.


Lemma users_are_not_admin rows n u :
  map role rows = repeat user n ->
  existsb (fun x => (Db.user_id x =? u)%string && app_role_eqb (role x) admin) rows
  = false
  /\ match filter (fun x => Db.user_id x =? u)%string rows with
     | x :: _ => Some (role x)
     | [] => None
     end <> Some admin.
Proof.
  revert n. induction rows as [|x rows IH]; intros n H; cbn [existsb filter].
  - split; [reflexivity | discriminate].
  - destruct n as [|n]; [discriminate|]. cbn [map repeat] in H.
    injection H as Hx Hrest. destruct (IH n Hrest) as [IH1 IH2].
    rewrite Hx, IH1. cbn [app_role_eqb]. rewrite andb_false_r. split; [reflexivity|].
    destruct (Db.user_id x =? u)%string; [rewrite Hx; discriminate | exact IH2].
Qed.

Lemma the_first_identity_is_admin_aux l u :
  let a := sign_ups l (mkAccounts [] []) in
  (has_role a (Some u) admin = true
   <-> hd_error (map Db.user_id (user_roles a)) = Some u)
  /\ has_role a None admin = false.
Proof.
  cbv zeta. split; [|reflexivity].
  pose proof (sign_ups_roles l (mkAccounts [] []) (or_introl eq_refl)) as R.
  set (a := sign_ups l (mkAccounts [] [])) in *.
  unfold has_role. destruct (user_roles a) as [|x rows]; cbn [map hd_error existsb].
  - split; discriminate.
  - destruct R as [R | [n R]]; [discriminate|]. cbn [map] in R.
    injection R as Hx Hrest.
    destruct (users_are_not_admin rows n u Hrest) as [-> _].
    rewrite Hx, orb_false_r. cbn [app_role_eqb]. rewrite andb_true_r.
    rewrite String.eqb_eq. split; congruence.
Qed.


(** X20.  The policies of [memberships] over such a system: a signed-in
    identity other than the first one can read every row and write none (an
    update changes no row, an insert is refused), a request without an
    identity reads nothing, and the first identity's update and insert are
    those of the table itself. *)
Theorem only_the_first_identity_writes_memberships
  (l : list (Defaults * AuthUser)) (u : string)
  (p : Patch) (key : string) (dflt : Defaults) (v : NewMembership) (t : Table) :
  let a := sign_ups l (mkAccounts [] []) in
  (hd_error (map Db.user_id (user_roles a)) <> Some u ->
     rls_update a (Some u) p key t = t
     /\ rls_insert a (Some u) dflt v t = inl (denied_by_policy "memberships")
     /\ rls_select a (Some u) t = t)
  /\ (hd_error (map Db.user_id (user_roles a)) = Some u ->
        rls_update a (Some u) p key t = update_eq_id p key t
        /\ rls_insert a (Some u) dflt v t
           = match insert_membership dflt v t with
             | inl e => inl (rejected e)
             | inr t' => inr t'
             end
        /\ rls_select a (Some u) t = t)
  /\ rls_update a None p key t = t
  /\ rls_insert a None dflt v t = inl (denied_by_policy "memberships")
  /\ rls_select a None t = [].
Proof.
  cbv zeta.
  destruct (the_first_identity_is_admin_aux l u) as [Hadm Hnone].
  unfold rls_update, rls_insert, rls_select, allowed.
  split; [|split; [|rewrite Hnone; auto]].
  - intros H. destruct (has_role _ (Some u) admin) eqn:E;
      [exfalso; apply H; now apply Hadm | auto].
  - intros H. apply Hadm in H. rewrite H. auto.
Qed.

Lemma only_the_first_identity_writes_memberships_witness :
  let d1 := mkDefaults "r1" (mkDate 2025 0 15) "2025-01-15T10:00:00Z" in
  let d2 := mkDefaults "r2" (mkDate 2025 0 16) "2025-01-16T10:00:00Z" in
  let l := [(d1, mkAuthUser "u1" (Some "a@example.org") None);
            (d2, mkAuthUser "u2" (Some "b@example.org") (Some "Bea"))] in
  let a := sign_ups l (mkAccounts [] []) in
  let p := mkPatch None (Some "cancelled") (Some "2025-06-15T09:00:00.000Z")%string in
  rls_update a (Some "u2"%string) p "4be1a2f0" [Sample.cancelled_row]
  = [Sample.cancelled_row]
  /\ rls_update a (Some "u1"%string) p "4be1a2f0" [Sample.expired_row]
     = update_eq_id p "4be1a2f0" [Sample.expired_row].
Proof.
  intros d1 d2 l a p. split.
  - apply (proj1 (only_the_first_identity_writes_memberships
                    l "u2" p "4be1a2f0" d1
                    (mkNew "" "" "" "" "" "" None None) [Sample.cancelled_row])).
    vm_compute. discriminate.
  - apply (proj1 (proj2 (only_the_first_identity_writes_memberships
                    l "u1" p "4be1a2f0" d1
                    (mkNew "" "" "" "" "" "" None None) [Sample.expired_row]))).
    reflexivity.
Defined.

(** X22.  What the sign-up trigger needs and what it writes: a new identity
    without an e-mail address is refused for a null column, even when its
    metadata has a full name; when the trigger succeeds, the identity has an
    e-mail address and was not in [profiles], and exactly one profile and
    one role are added, the profile under the full name of the metadata or,
    without one, under the e-mail address. *)
Theorem sign_up_needs_an_email
  (dflt : Defaults) (NEW : AuthUser) (a : Accounts) :
  (NEW_email NEW = None ->
     exists column, handle_new_user dflt NEW a
                    = inl (not_null_violation column "profiles"))
  /\ (forall a', handle_new_user dflt NEW a = inr a' ->
        exists mail,
          NEW_email NEW = Some mail
          /\ ~ In (NEW_id NEW) (map profile_id (profiles a))
          /\ profiles a'
             = (profiles a
                ++ [mkProfile (NEW_id NEW)
                      (match raw_full_name NEW with
                       | Some name => name
                       | None => mail
                       end) mail (NOW dflt)])%list
          /\ List.length (user_roles a') = S (List.length (user_roles a))).
Proof.
  split.
  - intros H. unfold handle_new_user. rewrite H.
    destruct (COALESCE _ _); eauto.
  - intros a' H. pose proof (handle_new_user_inv _ _ _ _ H)
      as (name & mail & Hp & Hfresh & Hr).
    revert H Hp. unfold handle_new_user, COALESCE.
    destruct (NEW_email NEW) as [mail'|] eqn:Em.
    + destruct (raw_full_name NEW) as [full|];
        (destruct (existsb _ (profiles a)); [discriminate|]);
        intros H Hp; apply insert_user_role_inv in H as [_ Hp'];
        cbn [profiles] in Hp'; exists mail';
        (repeat split; [exact Hfresh | exact Hp'
                       | rewrite Hr, length_app; cbn [List.length]; lia]).
    + destruct (raw_full_name NEW); discriminate.
Qed.

Lemma sign_up_needs_an_email_witness :
  exists column,
    handle_new_user (mkDefaults "r1" (mkDate 2025 0 15) "2025-01-15T10:00:00Z")
      (mkAuthUser "u1" None (Some "Ada")) (mkAccounts [] [])
    = inl (not_null_violation column "profiles").
Proof.
  exact (proj1 (sign_up_needs_an_email
                  (mkDefaults "r1" (mkDate 2025 0 15) "2025-01-15T10:00:00Z")
                  (mkAuthUser "u1" None (Some "Ada")) (mkAccounts [] []))
               eq_refl).
Defined.

End RolesMore.

(** ** The page "Reports", further *)

Section ReportsMore.
Import Text DateFns Db Handler Spec Facts.

Lemma length_filter_status s data :
  List.length (filter (fun m => Row.status m =? s)%string data)
  = count_occ string_dec (map Row.status data) s.
Proof.
  induction data as [|r data IH]; [reflexivity|]. cbn [filter map count_occ].
  destruct (String.eqb_spec (Row.status r) s) as [E|E];
    destruct (string_dec (Row.status r) s) as [E'|E']; try contradiction;
    cbn [List.length]; now rewrite IH.
Qed.

Lemma forallb_map_comp {A B} (f : B -> bool) (g : A -> B) (l : list A) :
  forallb f (map g l) = forallb (fun x => f (g x)) l.
Proof. induction l as [|x l IH]; cbn [map forallb]; [reflexivity | now rewrite IH]. Qed.

Lemma counts_add_up (l : list string) :
  forallb membership_status l = true ->
  (count_occ string_dec l "active" + count_occ string_dec l "cancelled"
   + count_occ string_dec l "expired")%nat = List.length l.
Proof.
  induction l as [|s l IH]; [reflexivity|]. cbn [forallb].
  rewrite andb_true_iff. intros [Hs Hl]. specialize (IH Hl).
  unfold membership_status in Hs. rewrite !orb_true_iff, !String.eqb_eq in Hs.
  cbn [count_occ List.length].
  destruct Hs as [[-> | ->] | ->];
    repeat match goal with
           | |- context [string_dec ?a ?b] =>
               destruct (string_dec a b); try discriminate; try contradiction
           end; cbn [List.length]; lia.
Qed.

(** X21.  The statistics of the page "Reports" always describe the list it
    shows: if they do before a fetch, they do after it, whether the request
    succeeds (the list becomes the rows of the table in the order of the
    database, the four figures are recounted from it) or fails (list and
    figures stay); the page is no longer loading, the table is only read,
    and when every status shown is one of the three of the enumeration,
    active, cancelled and expired add up to the total. *)
Theorem statistics_describe_the_list
  (order_created_at_desc : Table -> Table)
  (env : Env) (w : World Reports.State)
  (Hbefore : stats_describe (page w)) :
  let w' := run (Reports.fetchMemberships order_created_at_desc env) w in
  stats_describe (page w')
  /\ Reports.dataLoading (page w') = false
  /\ memberships w' = memberships w
  /\ Reports.memberships (page w')
     = match read_error env with
       | None => order_created_at_desc (memberships w)
       | Some _ => Reports.memberships (page w)
       end
  /\ (forallb (fun r => membership_status (Row.status r))
              (Reports.memberships (page w')) = true ->
      (Reports.active (Reports.stats (page w'))
       + Reports.cancelled (Reports.stats (page w'))
       + Reports.expired (Reports.stats (page w')))%nat
      = Reports.total (Reports.stats (page w'))).
Proof.
  cbv zeta.
  assert (S : stats_describe
                (page (run (Reports.fetchMemberships order_created_at_desc env) w))
              /\ Reports.dataLoading
                   (page (run (Reports.fetchMemberships order_created_at_desc env) w))
                 = false
              /\ memberships (run (Reports.fetchMemberships order_created_at_desc env) w)
                 = memberships w
              /\ Reports.memberships
                   (page (run (Reports.fetchMemberships order_created_at_desc env) w))
                 = match read_error env with
                   | None => order_created_at_desc (memberships w)
                   | Some _ => Reports.memberships (page w)
                   end).
  { unfold run, Reports.fetchMemberships, Reports.setDataLoading,
           Reports.setMemberships, Reports.setStats, Reports.supabase_select_all,
           bind, ret, set_page.
    cbn [fst snd page memberships toasts].
    destruct (read_error env);
      cbn [fst snd page memberships toasts Reports.memberships Reports.stats
           Reports.dataLoading].
    - repeat split; try apply Hbefore; reflexivity.
    - unfold stats_describe.
      cbn [Reports.memberships Reports.stats Reports.total Reports.active
           Reports.cancelled Reports.expired].
      repeat split; try reflexivity; apply length_filter_status. }
  destruct S as (S1 & S2 & S3 & S4). repeat split; try assumption;
    try apply S1.
  intros Hall. destruct S1 as (T & A & C & E). rewrite T, A, C, E.
  rewrite <- (length_map Row.status). apply counts_add_up.
  now rewrite forallb_map_comp.
Qed.

Lemma statistics_describe_the_list_witness :
  let w := mkWorld Reports.initial
                   [Sample.cancelled_row; Sample.expired_row;
                    Sample.member "active" "2025-01-01" "2026-01-01"] [] in
  Reports.stats (page (run (Reports.fetchMemberships (@rev _) Sample.env0) w))
  = Reports.mkStats 3 1 1 1
  /\ stats_describe
       (page (run (Reports.fetchMemberships (@rev _) Sample.env0) w)).
Proof.
  intros w. split; [reflexivity|].
  apply (statistics_describe_the_list (@rev _) Sample.env0 w).
  repeat split.
Defined.

End ReportsMore.
